(** * Keybinder: a GNOME Shell keybinding registry

    A shallow embedding of [keybinder.js].  The class keeps an identifier, a
    working directory and an ordered list of bindings; [enable] writes a
    gschema document, runs [glib-compile-schemas], loads the compiled schema
    and registers every binding with the shell's window manager; [disable]
    unregisters them.

    Conventions of the embedding:
    - a JavaScript string is a [string]: one character per code unit, so
      [String.length] is the [.length] property.  This is exact for the ASCII
      text that schema identifiers and accelerators are made of;
    - the object's fields ([this.id], [this.dir], [this.bindings]) live in the
      state the methods thread, next to the host's world and the list of
      host calls issued so far;
    - the host (GLib, Gio, Shell, Main.wm) is a class of oracles over an
      abstract world; a call either returns or throws. *)

From Stdlib Require Import String Ascii List ZArith NArith Bool Lia.
Import ListNotations.
Open Scope list_scope.
Open Scope string_scope.

(** ** Characters and small string utilities *)

(** The double quote, U+0022. *)
Definition dquote : ascii := "034"%char.
Definition DQ : string := String dquote EmptyString.

Definition chars (s : string) : list ascii := list_ascii_of_string s.

(** [parts.join('')]: concatenation of a list of strings. *)
Definition join_empty (parts : list string) : string :=
  fold_right String.append EmptyString parts.

(** [parts.join(sep)] as [Array.prototype.join] computes it. *)
Fixpoint join (sep : string) (parts : list string) : string :=
  match parts with
  | [] => EmptyString
  | [p] => p
  | p :: rest => p ++ sep ++ join sep rest
  end.

(** Character-wise substitution: the image of every character, concatenated. *)
Fixpoint flat_map_string (f : ascii -> string) (s : string) : string :=
  match s with
  | EmptyString => EmptyString
  | String c rest => f c ++ flat_map_string f rest
  end.

Definition hex_digit (n : N) : ascii :=
  match n with
  | 0 => "0" | 1 => "1" | 2 => "2" | 3 => "3" | 4 => "4" | 5 => "5" | 6 => "6"
  | 7 => "7" | 8 => "8" | 9 => "9" | 10 => "a" | 11 => "b" | 12 => "c"
  | 13 => "d" | 14 => "e" | _ => "f"
  end%N%char.

(** [printf("%x", c)] for a byte: lower case, no padding. *)
Definition hex_of_byte (n : N) : string :=
  if (n <? 16)%N then String (hex_digit n) EmptyString
  else String (hex_digit (n / 16)) (String (hex_digit (n mod 16)) EmptyString).

(** ** GLib.markup_escape_text

    GLib replaces the five markup-significant characters by their entities
    and writes the control characters other than tab, line feed and carriage
    return as hexadecimal character references; every other character is
    copied. *)

Definition markup_control (n : N) : bool :=
  ((1 <=? n) && (n <=? 8) || (11 <=? n) && (n <=? 12)
   || (14 <=? n) && (n <=? 31) || (n =? 127))%N.

Definition markup_escape_char (c : ascii) : string :=
  if Ascii.eqb c "&" then "&amp;"
  else if Ascii.eqb c "<" then "&lt;"
  else if Ascii.eqb c ">" then "&gt;"
  else if Ascii.eqb c "'" then "&apos;"
  else if Ascii.eqb c dquote then "&quot;"
  else if markup_control (N_of_ascii c)
       then "&#x" ++ hex_of_byte (N_of_ascii c) ++ ";"
  else String c EmptyString.

(** [GLib.markup_escape_text(text, length)]: the first [length] characters of
    [text] are escaped, the rest is not read. *)
Fixpoint GLib_markup_escape_text (text : string) (length : nat) : string :=
  match length, text with
  | S n, String c rest => markup_escape_char c ++ GLib_markup_escape_text rest n
  | _, _ => EmptyString
  end.

(** ** JSON.stringify on an array of strings

    ECMAScript's QuoteJSONString: the quote and the backslash are
    backslash-escaped, the control characters below U+0020 get their short
    escape or a [\u00xx] escape, everything else is copied. *)

Definition json_escape_char (c : ascii) : string :=
  let n := N_of_ascii c in
  if (n =? 8)%N then "\b"
  else if (n =? 9)%N then "\t"
  else if (n =? 10)%N then "\n"
  else if (n =? 12)%N then "\f"
  else if (n =? 13)%N then "\r"
  else if (n =? 34)%N then String "\" DQ
  else if (n =? 92)%N then "\\"
  else if (n <? 32)%N
       then "\u00" ++ String (hex_digit (n / 16)) (String (hex_digit (n mod 16)) EmptyString)
  else String c EmptyString.

Definition json_escape (s : string) : string := flat_map_string json_escape_char s.

Definition QuoteJSONString (s : string) : string := DQ ++ json_escape s ++ DQ.

Definition JSON_stringify (value : list string) : string :=
  "[" ++ join "," (map QuoteJSONString value) ++ "]".

(** [id.replace(/\./g, '/')]: every dot becomes a slash. *)
Definition replace_dots (s : string) : string :=
  flat_map_string (fun c => if Ascii.eqb c "." then "/" else String c EmptyString) s.

(** ** JavaScript integers and completions *)

(** ECMAScript's ToInt32 on an integral number. *)
Definition ToInt32 (z : Z) : Z := ((z + 2 ^ 31) mod 2 ^ 32 - 2 ^ 31)%Z.

(** The operator [a | b]: both operands go through ToInt32. *)
Definition js_bitor (a b : Z) : Z := Z.lor (ToInt32 a) (ToInt32 b).

(** How a call ends: it returns a value or throws one. *)
Inductive Completion (E A : Type) : Type :=
| Normal (a : A)
| Throw (e : E).
Arguments Normal {E A} a.
Arguments Throw {E A} e.

(** ** The host: GLib, Gio, Shell and Main.wm *)

(** [GLib.SpawnFlags.SEARCH_PATH]. *)
Definition GLib_SpawnFlags_SEARCH_PATH : Z := 4.

(** What [GLib.spawn_sync] returns when the child was spawned. *)
Record SpawnResult : Type := {
  spawn_ok : bool;
  standard_output : string;
  standard_error : string;
  exit_status : Z
}.

(** A [Gio.SettingsSchemaSource]: the schemas of one compiled cache, by id,
    and the source to fall back on. *)
#[warnings="-register-all"]
Inductive SettingsSchemaSource (Schema : Type) : Type :=
| SchemaSource (schemas : list (string * Schema))
               (parent : option (SettingsSchemaSource Schema)).
Arguments SchemaSource {Schema} schemas parent.

Fixpoint table_get {A : Type} (key : string) (table : list (string * A)) : option A :=
  match table with
  | [] => None
  | (k, v) :: rest => if String.eqb k key then Some v else table_get key rest
  end.

(** [source.lookup(schema_id, recursive)]: the source's own table first;
    the chain of parents only when [recursive] is set. *)
Fixpoint SettingsSchemaSource_lookup {Schema : Type}
    (source : SettingsSchemaSource Schema) (schema_id : string) (recursive : bool)
  : option Schema :=
  match source with
  | SchemaSource schemas parent =>
      match table_get schema_id schemas with
      | Some schema => Some schema
      | None =>
          if recursive then
            match parent with
            | Some p => SettingsSchemaSource_lookup p schema_id true
            | None => None
            end
          else None
      end
  end.

(** The collaborators of the class.  [World] is everything outside the
    registry: the file system, the processes, the shell's key bindings.
    The calls that report errors (the write, the spawn, opening the
    compiled cache, building the settings, and the registration, which the
    documentation of [enable] lists among the failures) may throw;
    [removeKeybinding] returns nothing and does not throw. *)
Class Host : Type := {
  World : Type;
  Exn : Type;
  Handler : Type;
  SettingsSchema : Type;
  Settings : Type;
  (** [GLib.get_tmp_dir()] *)
  host_tmp_dir : World -> string;
  (** [file.replace_contents(content, ...)] on the child [name] of [dir] *)
  host_replace_contents :
    string -> string -> string -> World -> Completion Exn unit * World;
  (** [GLib.spawn_sync(working_directory, argv, null, flags, null)] *)
  host_spawn_sync :
    string -> list string -> Z -> World -> Completion Exn SpawnResult * World;
  (** [Gio.SettingsSchemaSource.get_default()], [null] when there is none *)
  host_default_source : World -> option (SettingsSchemaSource SettingsSchema);
  (** the schemas of the compiled cache of a directory, as
      [new_from_directory] reads them *)
  host_compiled_schemas :
    string -> bool -> World -> Completion Exn (list (string * SettingsSchema));
  (** [new Gio.Settings({settings_schema: schema})] *)
  host_settings_new :
    option SettingsSchema -> World -> Completion Exn Settings * World;
  Shell_ActionMode_NORMAL : Z;
  Shell_ActionMode_MESSAGE_TRAY : Z;
  (** [Main.wm.addKeybinding(name, settings, flags, modes, handler)] *)
  host_add_keybinding :
    string -> Settings -> Z -> Z -> Handler -> World -> Completion Exn Z * World;
  (** [Main.wm.removeKeybinding(name)] *)
  host_remove_keybinding : string -> World -> World
}.

Section Keybinder.
Context {host : Host}.

(** One entry of [this.bindings]. *)
Record Binding : Type := {
  name : string;
  sequences : list string;
  handler : Handler
}.

(** The fields of a [Keybinder] object. *)
Record Keybinder : Type := {
  id : string;
  dir : string;
  bindings : list Binding
}.

(** The calls the class makes on the host, with their arguments. *)
Inductive Event : Type :=
| EvReplaceContents (directory child content : string)
| EvSpawnSync (working_directory : string) (argv : list string) (flags : Z)
| EvGetDefault
| EvNewFromDirectory (directory : string)
                     (parent : option (SettingsSchemaSource SettingsSchema))
                     (trusted : bool)
| EvLookup (source : SettingsSchemaSource SettingsSchema)
           (schema_id : string) (recursive : bool)
| EvSettingsNew (schema : option SettingsSchema)
| EvAddKeybinding (binding_name : string) (settings : Settings)
                  (flags modes : Z) (callback : Handler)
| EvRemoveKeybinding (binding_name : string).

Record State : Type := {
  this : Keybinder;
  world : World;
  log : list Event
}.

(** ** The monad of methods: state and exceptions *)

Definition M (A : Type) : Type := State -> Completion Exn A * State.

Definition ret {A : Type} (a : A) : M A := fun st => (Normal a, st).

Definition bind {A B : Type} (m : M A) (k : A -> M B) : M B :=
  fun st =>
    match m st with
    | (Normal a, st') => k a st'
    | (Throw e, st') => (Throw e, st')
    end.

Definition get_this : M Keybinder := fun st => (Normal (this st), st).

Definition set_this (k : Keybinder) : M unit :=
  fun st => (Normal tt, {| this := k; world := world st; log := log st |}).

(** A call on the host: it is recorded, and the oracle gives its outcome. *)
Definition host_call {A : Type} (ev : Event)
    (oracle : World -> Completion Exn A * World) : M A :=
  fun st =>
    let (r, w) := oracle (world st) in
    (r, {| this := this st; world := w; log := (log st ++ [ev])%list |}).

(** [for (let x of xs) body(x)] *)
Fixpoint for_of {A : Type} (xs : list A) (body : A -> M unit) : M unit :=
  match xs with
  | [] => ret tt
  | x :: rest => bind (body x) (fun _ => for_of rest body)
  end.

End Keybinder.

Declare Scope js_scope.
Delimit Scope js_scope with js.
Notation "x <- m ;; k" := (bind m (fun x => k))
  (at level 61, m at next level, right associativity) : js_scope.
Notation "m ;; k" := (bind m (fun _ => k))
  (at level 61, right associativity) : js_scope.

Section Methods.
Context {host : Host}.
Local Open Scope js_scope.

(** *** Host calls as the class writes them *)

Definition Gio_File_replace_contents (directory child content : string) : M unit :=
  host_call (EvReplaceContents directory child content)
            (host_replace_contents directory child content).

Definition GLib_spawn_sync (working_directory : string) (argv : list string)
    (flags : Z) : M SpawnResult :=
  host_call (EvSpawnSync working_directory argv flags)
            (host_spawn_sync working_directory argv flags).

Definition Gio_SettingsSchemaSource_get_default
  : M (option (SettingsSchemaSource SettingsSchema)) :=
  host_call EvGetDefault (fun w => (Normal (host_default_source w), w)).

(** The new source holds the directory's compiled schemas and keeps the
    given parent. *)
Definition Gio_SettingsSchemaSource_new_from_directory (directory : string)
    (parent : option (SettingsSchemaSource SettingsSchema)) (trusted : bool)
  : M (SettingsSchemaSource SettingsSchema) :=
  host_call (EvNewFromDirectory directory parent trusted)
            (fun w =>
               match host_compiled_schemas directory trusted w with
               | Normal schemas => (Normal (SchemaSource schemas parent), w)
               | Throw e => (Throw e, w)
               end).

Definition lookup (source : SettingsSchemaSource SettingsSchema)
    (schema_id : string) (recursive : bool) : M (option SettingsSchema) :=
  host_call (EvLookup source schema_id recursive)
            (fun w => (Normal (SettingsSchemaSource_lookup source schema_id recursive), w)).

Definition Gio_Settings_new (settings_schema : option SettingsSchema) : M Settings :=
  host_call (EvSettingsNew settings_schema) (host_settings_new settings_schema).

Definition Main_wm_addKeybinding (binding_name : string) (settings : Settings)
    (flags modes : Z) (callback : Handler) : M Z :=
  host_call (EvAddKeybinding binding_name settings flags modes callback)
            (host_add_keybinding binding_name settings flags modes callback).

Definition Main_wm_removeKeybinding (binding_name : string) : M unit :=
  host_call (EvRemoveKeybinding binding_name)
            (fun w => (Normal tt, host_remove_keybinding binding_name w)).

(** *** The class *)

(** [constructor(id, directory=GLib.get_tmp_dir())]; [directory] is [None]
    when the caller leaves it out. *)
Definition constructor (caller_id : string) (directory : option string) (w : World)
  : Keybinder :=
  {| id := "org.gnome.shell.extensions." ++ caller_id;
     dir := match directory with
            | Some d => d
            | None => host_tmp_dir w
            end;
     bindings := [] |}.

(** The second argument of [add]: a string or an array of strings. *)
Inductive Sequences : Type :=
| OneSequence (s : string)
| SequenceArray (a : list string).

Definition add (name : string) (sequences : Sequences) (handler : Handler) : M unit :=
  let sequences :=
    match sequences with
    | SequenceArray a => a
    | OneSequence s => [s]
    end in
  this <- get_this ;;
  set_this {| id := id this;
              dir := dir this;
              bindings := (bindings this
                           ++ [{| name := name; sequences := sequences;
                                  handler := handler |}])%list |}.

Definition render (b : Binding) : string :=
  let value := map (fun s => GLib_markup_escape_text s (String.length s)) (sequences b) in
  let markup := "<default>" ++ JSON_stringify value ++ "</default>" in
  "<key type=" ++ DQ ++ "as" ++ DQ ++ " name=" ++ DQ ++ name b ++ DQ
    ++ "><summary/>" ++ markup ++ "</key>".

Definition build : M unit :=
  this <- get_this ;;
  let path := replace_dots (id this) in
  let entries := join_empty (map render (bindings this)) in
  let schema := "<schema id=" ++ DQ ++ id this ++ DQ ++ " path=" ++ DQ ++ "/"
                  ++ path ++ "/" ++ DQ ++ ">" ++ entries ++ "</schema>" in
  let content := "<schemalist>" ++ schema ++ "</schemalist>" in
  Gio_File_replace_contents (dir this) (id this ++ ".gschema.xml") content.

Definition compile : M unit :=
  this <- get_this ;;
  let exec := ["glib-compile-schemas"; dir this] in
  GLib_spawn_sync (dir this) exec GLib_SpawnFlags_SEARCH_PATH ;;
  ret tt.

Definition load : M Settings :=
  this <- get_this ;;
  fb <- Gio_SettingsSchemaSource_get_default ;;
  src <- Gio_SettingsSchemaSource_new_from_directory (dir this) fb false ;;
  settings_schema <- lookup src (id this) true ;;
  Gio_Settings_new settings_schema.

Definition enable : M unit :=
  build ;;
  compile ;;
  settings <- load ;;
  let modes := js_bitor Shell_ActionMode_NORMAL Shell_ActionMode_MESSAGE_TRAY in
  this <- get_this ;;
  for_of (bindings this)
         (fun b => Main_wm_addKeybinding (name b) settings 0 modes (handler b) ;; ret tt).

Definition disable : M unit :=
  this <- get_this ;;
  for_of (bindings this) (fun b => Main_wm_removeKeybinding (name b)).

End Methods.

(** ** A small host to run the class on

    A world with a set of directories, the files in them, the compiled
    cache of each directory, the system-wide schemas and the names the
    window manager has bound.  Its compiler turns every [*.gschema.xml] of
    the directory into a schema named after the file, or, when it is
    broken, prints an error and exits with status 1. *)

Record DemoWorld : Type := {
  directories : list string;
  files : list (string * string * string);
  caches : list (string * list (string * (string * string)));
  installed : list (string * (string * string));
  compiler_works : bool;
  keybindings : list string
}.

Definition mem_string (s : string) (l : list string) : bool :=
  existsb (String.eqb s) l.

Definition demo_suffix : string := ".gschema.xml".

(** The schema id a file name stands for, when it ends in [.gschema.xml]. *)
Definition schema_stem (file : string) : option string :=
  let n := String.length file in
  let k := String.length demo_suffix in
  if (k <=? n)%nat && String.eqb (substring (n - k) k file) demo_suffix
  then Some (substring 0 (n - k) file)
  else None.

Definition demo_replace_contents (d child content : string) (w : DemoWorld)
  : Completion string unit * DemoWorld :=
  if mem_string d (directories w) then
    (Normal tt,
     {| directories := directories w;
        files := (d, child, content)
                 :: filter (fun f => negb (String.eqb (fst (fst f)) d
                                           && String.eqb (snd (fst f)) child))
                           (files w);
        caches := caches w;
        installed := installed w;
        compiler_works := compiler_works w;
        keybindings := keybindings w |})
  else (Throw "No such file or directory", w).

Definition demo_compiled (d : string) (w : DemoWorld) : list (string * (string * string)) :=
  flat_map (fun f =>
              if String.eqb (fst (fst f)) d then
                match schema_stem (snd (fst f)) with
                | Some stem => [(stem, (d, stem))]
                | None => []
                end
              else [])
           (files w).

Definition demo_spawn_sync (wd : string) (argv : list string) (flags : Z)
    (w : DemoWorld) : Completion string SpawnResult * DemoWorld :=
  if negb (mem_string wd (directories w)) then
    (Throw "Failed to change to directory", w)
  else if compiler_works w then
    (Normal {| spawn_ok := true; standard_output := EmptyString;
               standard_error := EmptyString; exit_status := 0 |},
     {| directories := directories w;
        files := files w;
        caches := (wd, demo_compiled wd w)
                  :: filter (fun c => negb (String.eqb (fst c) wd)) (caches w);
        installed := installed w;
        compiler_works := compiler_works w;
        keybindings := keybindings w |})
  else
    (Normal {| spawn_ok := true; standard_output := EmptyString;
               standard_error := "glib-compile-schemas: error";
               exit_status := 256 |}, w).

Definition demo_default_source (w : DemoWorld)
  : option (SettingsSchemaSource (string * string)) :=
  Some (SchemaSource (installed w) None).

Definition demo_compiled_schemas (d : string) (trusted : bool) (w : DemoWorld)
  : Completion string (list (string * (string * string))) :=
  match table_get d (caches w) with
  | Some schemas => Normal schemas
  | None => Throw "Failed to open gschemas.compiled"
  end.

Definition demo_settings_new (schema : option (string * string)) (w : DemoWorld)
  : Completion string (string * string) * DemoWorld :=
  match schema with
  | Some s => (Normal s, w)
  | None => (Throw "no settings schema", w)
  end.

Definition demo_add_keybinding (n : string) (settings : string * string)
    (flags modes : Z) (h : nat) (w : DemoWorld) : Completion string Z * DemoWorld :=
  (Normal (Z.of_nat (S (List.length (keybindings w)))),
   {| directories := directories w;
      files := files w;
      caches := caches w;
      installed := installed w;
      compiler_works := compiler_works w;
      keybindings := (keybindings w ++ [n])%list |}).

Definition demo_remove_keybinding (n : string) (w : DemoWorld) : DemoWorld :=
  {| directories := directories w;
     files := files w;
     caches := caches w;
     installed := installed w;
     compiler_works := compiler_works w;
     keybindings := filter (fun k => negb (String.eqb k n)) (keybindings w) |}.

(** Schemas are (origin, id) pairs, settings are the schema they are bound
    to, handlers are numbered. *)
Definition demo_host : Host := {|
  World := DemoWorld;
  Exn := string;
  Handler := nat;
  SettingsSchema := string * string;
  Settings := string * string;
  host_tmp_dir := fun _ => "/tmp";
  host_replace_contents := demo_replace_contents;
  host_spawn_sync := demo_spawn_sync;
  host_default_source := demo_default_source;
  host_compiled_schemas := demo_compiled_schemas;
  host_settings_new := demo_settings_new;
  Shell_ActionMode_NORMAL := 1;
  Shell_ActionMode_MESSAGE_TRAY := 8;
  host_add_keybinding := demo_add_keybinding;
  host_remove_keybinding := demo_remove_keybinding
|}.

Definition demo_world : DemoWorld := {|
  directories := ["/tmp/kbtest"];
  files := [];
  caches := [];
  installed := [];
  compiler_works := true;
  keybindings := []
|}.

(** The same world without the working directory. *)
Definition demo_world_no_directory : DemoWorld := {|
  directories := [];
  files := [];
  caches := [];
  installed := [];
  compiler_works := true;
  keybindings := []
|}.

(** A world whose compiler fails. *)
Definition demo_world_broken_compiler : DemoWorld := {|
  directories := ["/tmp/kbtest"];
  files := [];
  caches := [];
  installed := [];
  compiler_works := false;
  keybindings := []
|}.

(** A world where the directory's cache holds no schema, and a schema with
    the registry's id is installed system-wide. *)
Definition demo_world_colliding : DemoWorld := {|
  directories := ["/tmp/kbtest"];
  files := [];
  caches := [("/tmp/kbtest", [])];
  installed := [("org.gnome.shell.extensions.demo",
                 ("/usr/share/glib-2.0/schemas", "org.gnome.shell.extensions.demo"))];
  compiler_works := false;
  keybindings := []
|}.

(** The state a caller reaches with [new Keybinder(caller_id, directory)]
    in world [w]. *)
Definition new_Keybinder {host : Host} (caller_id : string) (directory : option string)
    (w : World) : State :=
  {| this := constructor caller_id directory w; world := w; log := [] |}.

(** The state after a method ran. *)
Definition after {host : Host} {A : Type} (m : M A) (st : State) : State := snd (m st).

(** The registry of the example built in world [w]. *)
Definition demo_state_in (w : DemoWorld) : @State demo_host :=
  after (add (host := demo_host) "quit"
             (SequenceArray ["<Super>q"; "<Super>Escape>"]) 2%nat)
    (after (add (host := demo_host) "toggle" (OneSequence "<Super>j") 1%nat)
       (new_Keybinder (host := demo_host) "demo" (Some "/tmp/kbtest") w)).

(** The registry of the example: id [demo], directory [/tmp/kbtest],
    bindings [toggle] and [quit]. *)
Definition demo_state : @State demo_host := demo_state_in demo_world.

(** ** Vocabulary of the properties *)

(** The five markup-significant characters. *)
Definition markup_special (c : ascii) : bool :=
  Ascii.eqb c "<" || Ascii.eqb c ">" || Ascii.eqb c "&"
  || Ascii.eqb c dquote || Ascii.eqb c "'".

(** The four of them that are never part of a reference. *)
Definition markup_delimiter (c : ascii) : bool :=
  Ascii.eqb c "<" || Ascii.eqb c ">" || Ascii.eqb c dquote || Ascii.eqb c "'".

Definition is_hex_digit (c : ascii) : bool :=
  let n := N_of_ascii c in
  ((48 <=? n) && (n <=? 57) || (97 <=? n) && (n <=? 102))%N.

(** A reference: one of the five predefined entities, or a hexadecimal
    character reference. *)
Definition is_reference (r : string) : bool :=
  existsb (String.eqb r) ["&amp;"; "&lt;"; "&gt;"; "&quot;"; "&apos;"]
  || match r with
     | String "&" (String "#" (String "x" digits)) =>
         match rev (chars digits) with
         | ";"%char :: d :: ds => forallb is_hex_digit (d :: ds)
         | _ => false
         end
     | _ => false
     end.

(** Text in which no markup-significant character stands for itself: it is
    made of ordinary characters and of references. *)
Inductive escaped_text : string -> Prop :=
| escaped_nil : escaped_text EmptyString
| escaped_char (c : ascii) (s : string) :
    markup_special c = false -> escaped_text s -> escaped_text (String c s)
| escaped_ref (r s : string) :
    is_reference r = true -> escaped_text s -> escaped_text (r ++ s).

(** What one character of a sequence becomes inside the [<default>] element:
    a reference, or ordinary characters only. *)
Definition chunk_ok (r : string) : bool :=
  is_reference r || forallb (fun c => negb (markup_special c)) (chars r).

(** The opening of a key element, up to the name. *)
Definition key_open : string := "<key type=" ++ DQ ++ "as" ++ DQ ++ " name=" ++ DQ.

(** The schema element's opening tag as the specification words it: the
    path is the identifier's prefix and the caller's id, as given. *)
Definition spec_schema_open (caller_id : string) : string :=
  "<schemalist><schema id=" ++ DQ ++ "org.gnome.shell.extensions." ++ caller_id ++ DQ
    ++ " path=" ++ DQ ++ "/org/gnome/shell/extensions/" ++ caller_id ++ "/" ++ DQ ++ ">".

(** The opening tag the class writes: in the path every dot of the
    caller's id is a slash as well. *)
Definition schema_open (caller_id : string) : string :=
  "<schemalist><schema id=" ++ DQ ++ "org.gnome.shell.extensions." ++ caller_id ++ DQ
    ++ " path=" ++ DQ ++ "/org/gnome/shell/extensions/" ++ replace_dots caller_id
    ++ "/" ++ DQ ++ ">".

Section Vocabulary.
Context {host : Host}.

Definition is_registration (e : Event) : bool :=
  match e with
  | EvAddKeybinding _ _ _ _ _ => true
  | _ => false
  end.

Definition is_unregistration (e : Event) : bool :=
  match e with
  | EvRemoveKeybinding _ => true
  | _ => false
  end.

(** The stage of the pipeline a host call belongs to. *)
Inductive Step : Type :=
| StepBuild (directory child content : string)
| StepCompile (working_directory : string) (argv : list string)
| StepLoad
| StepRegister (binding_name : string)
| StepUnregister (binding_name : string).

Definition step_of (e : Event) : Step :=
  match e with
  | EvReplaceContents d c x => StepBuild d c x
  | EvSpawnSync wd argv _ => StepCompile wd argv
  | EvGetDefault => StepLoad
  | EvNewFromDirectory _ _ _ => StepLoad
  | EvLookup _ _ _ => StepLoad
  | EvSettingsNew _ => StepLoad
  | EvAddKeybinding n _ _ _ _ => StepRegister n
  | EvRemoveKeybinding n => StepUnregister n
  end.

(** The document [build] hands to [replace_contents]. *)
Definition document (k : Keybinder) : string :=
  "<schemalist>"
    ++ ("<schema id=" ++ DQ ++ id k ++ DQ ++ " path=" ++ DQ ++ "/"
          ++ replace_dots (id k) ++ "/" ++ DQ ++ ">"
          ++ join_empty (map render (bindings k)) ++ "</schema>")
    ++ "</schemalist>".

(** The file [build] writes it to, inside the working directory. *)
Definition document_name (k : Keybinder) : string := id k ++ ".gschema.xml".

(** The argument vector [compile] spawns. *)
Definition compiler_argv (k : Keybinder) : list string :=
  ["glib-compile-schemas"; dir k].

(** The host calls issued between two states of one run. *)
Definition issued (before after_ : State) (calls : list Event) : Prop :=
  log after_ = (log before ++ calls)%list.

(** The registration call [enable] makes for a binding. *)
Definition registration (settings : Settings) (b : Binding) : Event :=
  EvAddKeybinding (name b) settings 0
    (js_bitor Shell_ActionMode_NORMAL Shell_ActionMode_MESSAGE_TRAY) (handler b).

(** The stages a complete run of [enable] goes through for a registry:
    the write, the spawn, the four calls of [load], one registration per
    binding. *)
Definition pipeline_steps (k : Keybinder) : list Step :=
  ([StepBuild (dir k) (document_name k) (document k);
    StepCompile (dir k) (compiler_argv k);
    StepLoad; StepLoad; StepLoad; StepLoad]
   ++ map (fun b => StepRegister (name b)) (bindings k))%list.

End Vocabulary.

(** ** Callers, and vocabulary for them *)

Section Callers.
Context {host : Host}.
Local Open Scope js_scope.

(** A caller that adds bindings one after the other; each element holds
    the three arguments of one call of [add]. *)
Definition add_all (calls : list (string * Sequences * Handler)) : M unit :=
  for_of calls (fun c => add (fst (fst c)) (snd (fst c)) (snd c)).

(** The binding one call of [add] stores. *)
Definition binding_of_call (c : string * Sequences * Handler) : Binding :=
  {| name := fst (fst c);
     sequences := match snd (fst c) with
                  | SequenceArray a => a
                  | OneSequence s => [s]
                  end;
     handler := snd c |}.

(** The loop of [enable] on its own. *)
Definition register_each (settings : Settings) (bs : list Binding) : M unit :=
  for_of bs
    (fun b =>
       Main_wm_addKeybinding (name b) settings 0
         (js_bitor Shell_ActionMode_NORMAL Shell_ActionMode_MESSAGE_TRAY) (handler b) ;;
       ret tt).

(** The names registered by the calls of a log, in order. *)
Definition registered_names (calls : list Event) : list string :=
  flat_map (fun e => match e with
                     | EvAddKeybinding n _ _ _ _ => [n]
                     | _ => []
                     end) calls.

End Callers.

(** Two strings of which one is the beginning of the other. *)
Definition comparable (a b : string) : bool := String.prefix a b || String.prefix b a.

(** The 256 characters. *)
Definition all_ascii : list ascii := map ascii_of_nat (seq 0 256).

(** A code of characters in which no code word begins another one. *)
Definition prefix_free (f : ascii -> string) : bool :=
  forallb (fun c =>
             forallb (fun c' => Ascii.eqb c c' || negb (comparable (f c) (f c')))
                     all_ascii)
          all_ascii.

(** A character that both escapes copy: printable, and none of the
    markup-significant characters or the backslash. *)
Definition plain_char (c : ascii) : bool :=
  let n := N_of_ascii c in
  negb (markup_special c) && (32 <=? n)%N && negb (n =? 127)%N && negb (n =? 92)%N.

(** A window manager that refuses a name it has already bound. *)
Definition strict_add_keybinding (n : string) (settings : string * string)
    (flags modes : Z) (h : nat) (w : DemoWorld) : Completion string Z * DemoWorld :=
  if mem_string n (keybindings w) then (Throw "keybinding already exists", w)
  else demo_add_keybinding n settings flags modes h w.

Definition strict_host : Host := {|
  World := DemoWorld;
  Exn := string;
  Handler := nat;
  SettingsSchema := string * string;
  Settings := string * string;
  host_tmp_dir := fun _ => "/tmp";
  host_replace_contents := demo_replace_contents;
  host_spawn_sync := demo_spawn_sync;
  host_default_source := demo_default_source;
  host_compiled_schemas := demo_compiled_schemas;
  host_settings_new := demo_settings_new;
  Shell_ActionMode_NORMAL := 1;
  Shell_ActionMode_MESSAGE_TRAY := 8;
  host_add_keybinding := strict_add_keybinding;
  host_remove_keybinding := demo_remove_keybinding
|}.

(** On the strict host: the name [toggle] added twice, then [quit]. *)
Definition duplicate_state : @State strict_host :=
  after (add_all (host := strict_host)
           [("toggle", OneSequence "<Super>j", 1%nat);
            ("toggle", OneSequence "<Super>k", 2%nat);
            ("quit", SequenceArray ["<Super>q"], 3%nat)])
    (new_Keybinder (host := strict_host) "demo" (Some "/tmp/kbtest") demo_world).

(** A world whose cache is compiled and empty, with nothing installed. *)
Definition demo_world_empty_cache : DemoWorld := {|
  directories := ["/tmp/kbtest"];
  files := [];
  caches := [("/tmp/kbtest", [])];
  installed := [];
  compiler_works := false;
  keybindings := []
|}.

(** A world where the directory's cache and the system both hold a schema
    with the registry's id. *)
Definition demo_world_both : DemoWorld := {|
  directories := ["/tmp/kbtest"];
  files := [];
  caches := [("/tmp/kbtest",
              [("org.gnome.shell.extensions.demo",
                ("/tmp/kbtest", "org.gnome.shell.extensions.demo"))])];
  installed := [("org.gnome.shell.extensions.demo",
                 ("/usr/share/glib-2.0/schemas", "org.gnome.shell.extensions.demo"))];
  compiler_works := false;
  keybindings := []
|}.

(** * Properties *)

(** ** Strings *)

Lemma append_assoc (a b c : string) : (a ++ b) ++ c = a ++ (b ++ c).
Proof.
  induction a as [|x a IH]; simpl; [reflexivity | now rewrite IH].
Qed.

Lemma chars_app (a b : string) : chars (a ++ b) = (chars a ++ chars b)%list.
Proof.
  induction a as [|x a IH]; simpl; [reflexivity | unfold chars in *; simpl; now rewrite IH].
Qed.

Lemma flat_map_string_app (f : ascii -> string) (a b : string) :
  flat_map_string f (a ++ b) = flat_map_string f a ++ flat_map_string f b.
Proof.
  induction a as [|x a IH]; simpl; [reflexivity |].
  now rewrite IH, append_assoc.
Qed.

(** Called with the length of the text, the escape reads all of it. *)
Lemma markup_escape_whole (s : string) :
  GLib_markup_escape_text s (String.length s) = flat_map_string markup_escape_char s.
Proof.
  induction s as [|c s IH]; simpl; [reflexivity | now rewrite IH].
Qed.

(** A shorter length leaves the tail of the text out. *)
Lemma markup_escape_prefix (s : string) (n : nat) :
  GLib_markup_escape_text s n = flat_map_string markup_escape_char (substring 0 n s).
Proof.
  revert s; induction n as [|n IH]; intros [|c s]; simpl; try reflexivity.
  now rewrite IH.
Qed.

(** Whatever the character, its escaped and serialized form is a reference
    or ordinary text. *)
Lemma escaped_char_chunk (c : ascii) :
  chunk_ok (json_escape (markup_escape_char c)) = true.
Proof.
  destruct c as [[] [] [] [] [] [] [] []]; vm_compute; reflexivity.
Qed.

Lemma escaped_text_plain (r s : string) :
  forallb (fun c => negb (markup_special c)) (chars r) = true ->
  escaped_text s -> escaped_text (r ++ s).
Proof.
  induction r as [|c r IH]; simpl; intros Hr Hs; [exact Hs |].
  apply andb_true_iff in Hr as [Hc Hr].
  apply escaped_char; [now apply negb_true_iff | now apply IH].
Qed.

Lemma escaped_text_chunk (r s : string) :
  chunk_ok r = true -> escaped_text s -> escaped_text (r ++ s).
Proof.
  unfold chunk_ok; intros H Hs.
  apply orb_true_iff in H as [H | H].
  - now apply escaped_ref.
  - now apply escaped_text_plain.
Qed.

Lemma escaped_sequence (s : string) :
  escaped_text (json_escape (flat_map_string markup_escape_char s)).
Proof.
  unfold json_escape.
  induction s as [|c s IH]; simpl; [constructor |].
  rewrite flat_map_string_app.
  apply escaped_text_chunk; [apply escaped_char_chunk | exact IH].
Qed.

Lemma hex_digit_no_delimiter (c : ascii) :
  is_hex_digit c = true -> markup_delimiter c = false.
Proof.
  destruct c as [[] [] [] [] [] [] [] []]; vm_compute; congruence.
Qed.

Lemma reference_no_delimiter (r : string) :
  is_reference r = true ->
  forallb (fun c => negb (markup_delimiter c)) (chars r) = true.
Proof.
  unfold is_reference; intros H.
  apply orb_true_iff in H as [H | H].
  - simpl in H.
    repeat (apply orb_true_iff in H as [H | H];
            [apply String.eqb_eq in H; subst r; reflexivity |]).
    discriminate.
  - destruct r as [|a [|b [|c digits]]]; try discriminate;
      try (destruct a as [[] [] [] [] [] [] [] []]; discriminate);
      try (destruct a as [[] [] [] [] [] [] [] []]; try discriminate;
           destruct b as [[] [] [] [] [] [] [] []]; discriminate).
    destruct a as [[] [] [] [] [] [] [] []]; try discriminate.
    destruct b as [[] [] [] [] [] [] [] []]; try discriminate.
    destruct c as [[] [] [] [] [] [] [] []]; try discriminate.
    destruct (rev (chars digits)) as [|z [|d ds]] eqn:E; try discriminate;
      try (destruct z as [[] [] [] [] [] [] [] []]; discriminate).
    destruct z as [[] [] [] [] [] [] [] []]; try discriminate.
    change (forallb (fun c => negb (markup_delimiter c)) (chars digits) = true).
    apply forallb_forall; intros x Hx.
    apply in_rev in Hx; rewrite E in Hx.
    destruct Hx as [<- | Hx]; [reflexivity |].
    rewrite forallb_forall in H.
    now rewrite (hex_digit_no_delimiter x (H x Hx)).
Qed.

Lemma escaped_text_no_delimiter (s : string) :
  escaped_text s ->
  forallb (fun c => negb (markup_delimiter c)) (chars s) = true.
Proof.
  induction 1 as [|c s Hc _ IH|r s Hr _ IH].
  - reflexivity.
  - change (chars (String c s)) with (c :: chars s); simpl.
    rewrite IH, andb_true_r.
    unfold markup_special in Hc; unfold markup_delimiter.
    destruct (Ascii.eqb c "<"), (Ascii.eqb c ">"), (Ascii.eqb c dquote),
      (Ascii.eqb c "'"), (Ascii.eqb c "&"); simpl in *; congruence.
  - rewrite chars_app, forallb_app, IH, andb_true_r.
    now apply reference_no_delimiter.
Qed.

Lemma substring_skip (a n r : string) :
  substring (String.length a) (String.length n) (a ++ n ++ r) = n.
Proof.
  induction a as [|x a IH]; simpl; [| exact IH].
  induction n as [|y n IH]; simpl.
  - now destruct r.
  - now rewrite IH.
Qed.

Lemma replace_dots_app (a b : string) :
  replace_dots (a ++ b) = replace_dots a ++ replace_dots b.
Proof. apply flat_map_string_app. Qed.

(** Without a dot there is nothing to replace. *)
Lemma replace_dots_no_dot (s : string) :
  forallb (fun c => negb (Ascii.eqb c ".")) (chars s) = true -> replace_dots s = s.
Proof.
  unfold replace_dots.
  induction s as [|c s IH]; simpl; [reflexivity |].
  change (chars (String c s)) with (c :: chars s); simpl.
  intros H; apply andb_true_iff in H as [Hc Hs].
  apply negb_true_iff in Hc; rewrite Hc; simpl.
  now rewrite IH.
Qed.

Section RenderProperties.
Context {host : Host}.

(** The serialized form of one sequence of a binding. *)
Lemma render_value (sequences : list string) :
  map (fun s => GLib_markup_escape_text s (String.length s)) sequences
  = map (flat_map_string markup_escape_char) sequences.
Proof.
  apply map_ext; intros s; apply markup_escape_whole.
Qed.

(** The fragment of one binding, spelled out. *)
Lemma render_form (b : Binding) :
  render b
  = key_open ++ name b ++ DQ ++ "><summary/><default>"
      ++ JSON_stringify (map (flat_map_string markup_escape_char) (sequences b))
      ++ "</default></key>".
Proof.
  unfold render, key_open; rewrite render_value.
  repeat rewrite append_assoc; reflexivity.
Qed.

(** C4.  In the fragment [render] returns, the [<default>] element holds the
    array of the binding's sequences, each one markup-escaped character by
    character and then quoted as a JSON string; in what a sequence becomes,
    none of [<], [>], the double quote and the apostrophe occurs at all, and
    [&] occurs only as the start of a reference. *)
Theorem render_escapes_sequences (b : Binding) :
  render b
  = key_open ++ name b ++ DQ ++ "><summary/><default>["
      ++ join ","
           (map (fun s => DQ ++ json_escape (flat_map_string markup_escape_char s) ++ DQ)
                (sequences b))
      ++ "]</default></key>"
  /\ Forall (fun s =>
               let e := json_escape (flat_map_string markup_escape_char s) in
               escaped_text e
               /\ forallb (fun c => negb (markup_delimiter c)) (chars e) = true)
            (sequences b).
Proof.
  split.
  - unfold render, JSON_stringify, QuoteJSONString, key_open.
    rewrite render_value, map_map.
    repeat rewrite append_assoc.
    reflexivity.
  - apply Forall_forall; intros s _; cbv zeta.
    pose proof (escaped_sequence s) as H.
    split; [exact H | now apply escaped_text_no_delimiter].
Qed.

(** C10.  The name of a binding is copied into the [name] attribute as it
    is: it stands in the fragment right after the opening of the key
    element, whatever characters it is made of.  For a name made of [a], a
    double quote and [b<c] the fragment carries the quote and the angle
    bracket unescaped. *)
Theorem render_name_verbatim :
  (forall b : Binding,
      substring (String.length key_open) (String.length (name b)) (render b) = name b)
  /\ (forall h : Handler,
        let b := {| name := "a" ++ DQ ++ "b<c"; sequences := ["<Super>j"]; handler := h |} in
        existsb (Ascii.eqb dquote) (chars (name b)) = true
        /\ existsb (Ascii.eqb "<") (chars (name b)) = true
        /\ render b
           = "<key type=" ++ DQ ++ "as" ++ DQ ++ " name=" ++ DQ
               ++ "a" ++ DQ ++ "b<c"
               ++ DQ ++ "><summary/><default>[" ++ DQ ++ "&lt;Super&gt;j" ++ DQ
               ++ "]</default></key>").
Proof.
  split.
  - intros b; rewrite render_form; apply substring_skip.
  - intros h; cbv zeta; repeat split; reflexivity.
Qed.

(** C8.  [add] with a bare string leaves the registry as [add] with the
    one-element array of that string does: in both cases the binding
    [{name, [s], handler}] is appended to the list, so the rendered entries
    are the same. *)
Theorem add_string_is_singleton (n s : string) (h : Handler) (st : State) :
  add n (OneSequence s) h st = add n (SequenceArray [s]) h st
  /\ bindings (this (after (add n (OneSequence s) h) st))
     = (bindings (this st) ++ [{| name := n; sequences := [s]; handler := h |}])%list
  /\ map render (bindings (this (after (add n (OneSequence s) h) st)))
     = map render (bindings (this (after (add n (SequenceArray [s]) h) st))).
Proof.
  repeat split; reflexivity.
Qed.

End RenderProperties.

(** ** The methods as runs of host calls *)

Section Runs.
Context {host : Host}.

Lemma host_call_run {A : Type} (ev : Event)
    (oracle : World -> Completion Exn A * World) (st : State) :
  host_call ev oracle st
  = (fst (oracle (world st)),
     {| this := this st; world := snd (oracle (world st));
        log := (log st ++ [ev])%list |}).
Proof.
  unfold host_call; now destruct (oracle (world st)).
Qed.

(** [build] is one write of the document, whatever the write answers. *)
Lemma build_run (st : State) :
  build st
  = (fst (host_replace_contents (dir (this st)) (document_name (this st))
            (document (this st)) (world st)),
     {| this := this st;
        world := snd (host_replace_contents (dir (this st)) (document_name (this st))
                        (document (this st)) (world st));
        log := (log st ++ [EvReplaceContents (dir (this st)) (document_name (this st))
                             (document (this st))])%list |}).
Proof.
  unfold build, bind, get_this, Gio_File_replace_contents.
  now rewrite host_call_run.
Qed.

(** [compile] is one spawn; only a throw of the spawn itself gets out. *)
Lemma compile_run (st : State) :
  let r := host_spawn_sync (dir (this st)) (compiler_argv (this st))
             GLib_SpawnFlags_SEARCH_PATH (world st) in
  compile st
  = (match fst r with
     | Normal _ => Normal tt
     | Throw e => Throw e
     end,
     {| this := this st; world := snd r;
        log := (log st ++ [EvSpawnSync (dir (this st)) (compiler_argv (this st))
                             GLib_SpawnFlags_SEARCH_PATH])%list |}).
Proof.
  cbv zeta; unfold compile, bind, get_this, GLib_spawn_sync, compiler_argv.
  rewrite host_call_run.
  now destruct (fst (host_spawn_sync _ _ _ _)).
Qed.

(** The two ways [load] can go: the cache of the directory cannot be
    opened, or it is opened, searched, and the settings object is built. *)
Lemma load_run (st : State) :
  let k := this st in
  let fb := host_default_source (world st) in
  load st
  = match host_compiled_schemas (dir k) false (world st) with
    | Throw e =>
        (Throw e,
         {| this := k; world := world st;
            log := (log st ++ [EvGetDefault; EvNewFromDirectory (dir k) fb false])%list |})
    | Normal schemas =>
        let src := SchemaSource schemas fb in
        let found := SettingsSchemaSource_lookup src (id k) true in
        (fst (host_settings_new found (world st)),
         {| this := k; world := snd (host_settings_new found (world st));
            log := (log st ++ [EvGetDefault; EvNewFromDirectory (dir k) fb false;
                               EvLookup src (id k) true; EvSettingsNew found])%list |})
    end.
Proof.
  cbv zeta.
  unfold load, bind, get_this, Gio_SettingsSchemaSource_get_default,
    Gio_SettingsSchemaSource_new_from_directory, lookup, Gio_Settings_new.
  repeat (rewrite host_call_run; cbn [fst snd this world log]).
  destruct (host_compiled_schemas (dir (this st)) false (world st)) as [schemas|e];
    cbn [fst snd].
  - repeat (rewrite host_call_run; cbn [fst snd this world log]).
    now rewrite <- !app_assoc.
  - now rewrite <- !app_assoc.
Qed.

End Runs.

Section Pipeline.
Context {host : Host}.
Local Open Scope js_scope.

Lemma issued_trans (a b c : State) (xs ys : list Event) :
  issued a b xs -> issued b c ys -> issued a c (xs ++ ys)%list.
Proof.
  unfold issued; intros H1 H2; now rewrite H2, H1, app_assoc.
Qed.

Lemma build_issued (st st1 : State) (r : Completion Exn unit) :
  build st = (r, st1) ->
  this st1 = this st
  /\ issued st st1 [EvReplaceContents (dir (this st)) (document_name (this st))
                      (document (this st))].
Proof.
  rewrite build_run; intros H; injection H as _ <-; now split.
Qed.

Lemma compile_issued (st st1 : State) (r : Completion Exn unit) :
  compile st = (r, st1) ->
  this st1 = this st
  /\ issued st st1 [EvSpawnSync (dir (this st)) (compiler_argv (this st))
                      GLib_SpawnFlags_SEARCH_PATH].
Proof.
  rewrite compile_run; intros H; injection H as _ <-; now split.
Qed.

Lemma load_issued (st st1 : State) (r : Completion Exn Settings) :
  load st = (r, st1) ->
  this st1 = this st
  /\ exists calls,
       issued st st1 calls
       /\ Forall (fun e => step_of e = StepLoad) calls
       /\ match r with
          | Normal _ => List.length calls = 4%nat
          | Throw _ => True
          end.
Proof.
  rewrite load_run.
  destruct (host_compiled_schemas _ _ _) as [schemas|e]; cbv zeta;
    intros H; injection H as <- <-; (split; [reflexivity |]);
    eexists; (split; [reflexivity |]); (split; [repeat constructor |]).
  - now destruct (fst _).
  - exact I.
Qed.

(** The loop of [enable]: when it runs to its end, one registration per
    binding, in the order of the list. *)
Lemma register_loop (settings : Settings) (modes : Z) (bs : list Binding) :
  forall st st' : State,
    for_of bs (fun b => Main_wm_addKeybinding (name b) settings 0 modes (handler b) ;;
                        ret tt) st
    = (Normal tt, st') ->
    this st' = this st
    /\ issued st st'
         (map (fun b => EvAddKeybinding (name b) settings 0 modes (handler b)) bs).
Proof.
  induction bs as [|b bs IH]; intros st st' H.
  - injection H as <-; split; [reflexivity |].
    unfold issued; simpl; now rewrite app_nil_r.
  - cbn [for_of] in H.
    unfold bind at 1 2 in H; unfold Main_wm_addKeybinding in H.
    rewrite host_call_run in H.
    destruct (fst (host_add_keybinding _ _ _ _ _ _)); [| discriminate].
    cbn [ret] in H.
    apply IH in H as [Hthis Hlog].
    unfold issued in Hlog |- *; cbn [this log map] in Hthis, Hlog |- *.
    split; [exact Hthis |].
    now rewrite Hlog, <- app_assoc.
Qed.

(** The loop of [disable] always runs to its end. *)
Lemma unregister_loop (bs : list Binding) :
  forall st : State,
    for_of bs (fun b => Main_wm_removeKeybinding (name b)) st
    = (Normal tt,
       {| this := this st;
          world := fold_left (fun w b => host_remove_keybinding (name b) w) bs (world st);
          log := (log st ++ map (fun b => EvRemoveKeybinding (name b)) bs)%list |}).
Proof.
  induction bs as [|b bs IH]; intros st.
  - simpl; unfold ret; rewrite app_nil_r; now destruct st.
  - cbn [for_of]; unfold bind, Main_wm_removeKeybinding.
    rewrite host_call_run; cbn [fst snd].
    rewrite IH; cbn [this world log fold_left map].
    now rewrite <- app_assoc.
Qed.

Lemma disable_run (st : State) :
  disable st
  = (Normal tt,
     {| this := this st;
        world := fold_left (fun w b => host_remove_keybinding (name b) w)
                           (bindings (this st)) (world st);
        log := (log st ++ map (fun b => EvRemoveKeybinding (name b))
                              (bindings (this st)))%list |}).
Proof.
  unfold disable, bind, get_this; apply unregister_loop.
Qed.

(** On a host whose registration never throws, the loop of [enable] runs
    to its end. *)
Lemma register_loop_returns (settings : Settings) (modes : Z) (bs : list Binding) :
  (forall n s f m h w, exists a, fst (host_add_keybinding n s f m h w) = Normal a) ->
  forall st : State,
  exists st',
    for_of bs (fun b => Main_wm_addKeybinding (name b) settings 0 modes (handler b) ;;
                        ret tt) st
    = (Normal tt, st').
Proof.
  intros Hhost; induction bs as [|b bs IH]; intros st.
  - now exists st.
  - cbn [for_of]; unfold bind at 1 2; unfold Main_wm_addKeybinding.
    rewrite host_call_run.
    destruct (Hhost (name b) settings 0%Z modes (handler b) (world st)) as [a ->].
    cbn [ret]; apply IH.
Qed.

(** So [enable] returns as soon as its three first stages do. *)
Lemma enable_returns (st st1 st2 st3 : State) (settings : Settings) :
  (forall n s f m h w, exists a, fst (host_add_keybinding n s f m h w) = Normal a) ->
  build st = (Normal tt, st1) ->
  compile st1 = (Normal tt, st2) ->
  load st2 = (Normal settings, st3) ->
  exists st', enable st = (Normal tt, st').
Proof.
  intros Hhost Hb Hc Hl.
  unfold enable, bind at 1 2 3 4; rewrite Hb, Hc, Hl; unfold get_this.
  apply register_loop_returns, Hhost.
Qed.

(** A run of [enable] that returns went through its four stages. *)
Lemma enable_stages (st st' : State) :
  enable st = (Normal tt, st') ->
  exists st1 st2 st3 settings,
    build st = (Normal tt, st1)
    /\ compile st1 = (Normal tt, st2)
    /\ load st2 = (Normal settings, st3)
    /\ this st3 = this st
    /\ issued st3 st' (map (registration settings) (bindings (this st))).
Proof.
  unfold enable, bind at 1 2 3 4; unfold get_this; intros H.
  destruct (build st) as [[[]|e] st1] eqn:Hb; [| discriminate].
  destruct (compile st1) as [[[]|e] st2] eqn:Hc; [| discriminate].
  destruct (load st2) as [[settings|e] st3] eqn:Hl; [| discriminate].
  apply register_loop in H as [_ Hlog].
  apply build_issued in Hb as Hb'; destruct Hb' as [T1 _].
  apply compile_issued in Hc as Hc'; destruct Hc' as [T2 _].
  apply load_issued in Hl as Hl'; destruct Hl' as [T3 _].
  assert (T : this st3 = this st) by congruence.
  exists st1, st2, st3, settings; repeat split; try assumption.
  unfold registration; now rewrite <- T.
Qed.

End Pipeline.

Lemma ToInt32_small (z : Z) :
  (- 2 ^ 31 <= z < 2 ^ 31)%Z -> ToInt32 z = z.
Proof.
  intros H; unfold ToInt32.
  rewrite Z.mod_small; lia.
Qed.

(** On constants that are 32-bit integers, [|] is the bitwise or. *)
Lemma js_bitor_int32 (a b : Z) :
  (- 2 ^ 31 <= a < 2 ^ 31)%Z -> (- 2 ^ 31 <= b < 2 ^ 31)%Z ->
  js_bitor a b = Z.lor a b.
Proof.
  intros Ha Hb; unfold js_bitor; now rewrite !ToInt32_small.
Qed.

Lemma map_constant {A B : Type} (f : A -> B) (c : B) (l : list A) :
  Forall (fun x => f x = c) l -> map f l = repeat c (List.length l).
Proof.
  induction 1 as [|x l Hx _ IH]; simpl; [reflexivity | now rewrite Hx, IH].
Qed.

Section Lifecycle.
Context {host : Host}.

(** A run of [enable] that returns issued the stages of the pipeline, in
    order, and left the registry as it was. *)
Lemma enable_steps (st st' : State) :
  enable st = (Normal tt, st') ->
  this st' = this st
  /\ exists calls, issued st st' calls /\ map step_of calls = pipeline_steps (this st).
Proof.
  intros H.
  assert (Hthis : this st' = this st).
  { revert H; unfold enable, bind at 1 2 3 4; unfold get_this; intros H.
    destruct (build st) as [[[]|e] st1] eqn:Hb; [| discriminate].
    destruct (compile st1) as [[[]|e] st2] eqn:Hc; [| discriminate].
    destruct (load st2) as [[settings|e] st3] eqn:Hl; [| discriminate].
    apply register_loop in H as [T _].
    apply build_issued in Hb as [T1 _].
    apply compile_issued in Hc as [T2 _].
    apply load_issued in Hl as [T3 _].
    congruence. }
  split; [exact Hthis |].
  apply enable_stages in H as (st1 & st2 & st3 & settings & Hb & Hc & Hl & T & Hreg).
  apply build_issued in Hb as [T1 L1].
  apply compile_issued in Hc as [T2 L2].
  apply load_issued in Hl as (T3 & calls & L3 & Hload & Hlen).
  eexists; split.
  - exact (issued_trans _ _ _ _ _ (issued_trans _ _ _ _ _ (issued_trans _ _ _ _ _ L1 L2) L3) Hreg).
  - rewrite !map_app, (map_constant _ _ _ Hload), Hlen, map_map.
    rewrite T1; unfold pipeline_steps; reflexivity.
Qed.

(** C1.  A run of [enable] that returns has gone through [build], then
    [compile], then [load], in that order; up to the return of [load] the
    host saw the write, the spawn and the calls of [load], and no
    registration; after it the host saw, for each binding in the order of
    the list, one registration with the binding's name, the settings
    [load] returned, flags 0, the modes [NORMAL | MESSAGE_TRAY] and the
    binding's handler, and nothing else. *)
Theorem enable_sequence (st st' : State) :
  enable st = (Normal tt, st') ->
  exists (st1 st2 st3 : State) (settings : Settings) (loading : list Event),
    build st = (Normal tt, st1)
    /\ compile st1 = (Normal tt, st2)
    /\ load st2 = (Normal settings, st3)
    /\ issued st st3
         (EvReplaceContents (dir (this st)) (document_name (this st)) (document (this st))
          :: EvSpawnSync (dir (this st)) (compiler_argv (this st))
               GLib_SpawnFlags_SEARCH_PATH
          :: loading)
    /\ Forall (fun e => step_of e = StepLoad) loading
    /\ existsb is_registration loading = false
    /\ issued st3 st'
         (map (fun b =>
                 EvAddKeybinding (name b) settings 0
                   (js_bitor Shell_ActionMode_NORMAL Shell_ActionMode_MESSAGE_TRAY)
                   (handler b))
              (bindings (this st))).
Proof.
  intros H.
  apply enable_stages in H as (st1 & st2 & st3 & settings & Hb & Hc & Hl & T & Hreg).
  destruct (build_issued _ _ _ Hb) as [T1 L1].
  destruct (compile_issued _ _ _ Hc) as [T2 L2].
  destruct (load_issued _ _ _ Hl) as (T3 & loading & L3 & Hload & _).
  exists st1, st2, st3, settings, loading.
  repeat split; try assumption.
  - rewrite T1 in L2.
    exact (issued_trans _ _ _ _ _ (issued_trans _ _ _ _ _ L1 L2) L3).
  - clear - Hload.
    induction Hload as [|e l He _ IH]; [reflexivity |].
    simpl; rewrite IH; now destruct e.
Qed.

(** C2.  Whatever the spawned compiler comes back with (exit status,
    output, error output), [compile] returns normally; the state it leaves
    is the world after the spawn and the record of the call, with nothing
    of the outcome in it. *)
Theorem compile_ignores_outcome (st : State) (outcome : SpawnResult) (w : World) :
  host_spawn_sync (dir (this st)) ["glib-compile-schemas"; dir (this st)]
    GLib_SpawnFlags_SEARCH_PATH (world st) = (Normal outcome, w) ->
  compile st
  = (Normal tt,
     {| this := this st; world := w;
        log := (log st ++ [EvSpawnSync (dir (this st))
                             ["glib-compile-schemas"; dir (this st)]
                             GLib_SpawnFlags_SEARCH_PATH])%list |}).
Proof.
  intros H; rewrite compile_run; cbv zeta.
  unfold compiler_argv; now rewrite H.
Qed.

(** C5.  When [build], [compile] or [load] throws inside [enable], [enable]
    throws the same value, and the host calls of that run contain no
    registration. *)
Theorem enable_fails_before_registration (st st' : State) (e : Exn) :
  build st = (Throw e, st')
  \/ (exists st1, build st = (Normal tt, st1) /\ compile st1 = (Throw e, st'))
  \/ (exists st1 st2,
        build st = (Normal tt, st1) /\ compile st1 = (Normal tt, st2)
        /\ load st2 = (Throw e, st')) ->
  enable st = (Throw e, st')
  /\ exists calls, issued st st' calls /\ existsb is_registration calls = false.
Proof.
  intros [Hb | [(st1 & Hb & Hc) | (st1 & st2 & Hb & Hc & Hl)]].
  - split; [unfold enable, bind at 1; now rewrite Hb |].
    apply build_issued in Hb as [_ L1]; eexists; split; [exact L1 | reflexivity].
  - split; [unfold enable, bind at 1 2; now rewrite Hb, Hc |].
    apply build_issued in Hb as [_ L1]; apply compile_issued in Hc as [_ L2].
    eexists; split; [exact (issued_trans _ _ _ _ _ L1 L2) | reflexivity].
  - split; [unfold enable, bind at 1 2 3; now rewrite Hb, Hc, Hl |].
    apply build_issued in Hb as [_ L1]; apply compile_issued in Hc as [_ L2].
    apply load_issued in Hl as (_ & calls & L3 & Hload & _).
    eexists; split;
      [exact (issued_trans _ _ _ _ _ (issued_trans _ _ _ _ _ L1 L2) L3) |].
    simpl; clear - Hload.
    induction Hload as [|x l Hx _ IH]; [reflexivity |].
    simpl; rewrite IH; now destruct x.
Qed.

(** C6.  In any state, [disable] returns normally after one call of
    [removeKeybinding] per binding of the list, with the binding's name, in
    the order of the list; it makes no other host call. *)
Theorem disable_unregisters_each (st : State) :
  fst (disable st) = Normal tt
  /\ issued st (after disable st)
       (map (fun b => EvRemoveKeybinding (name b)) (bindings (this st))).
Proof.
  unfold after; rewrite disable_run; split; reflexivity.
Qed.

(** C7.  [disable] leaves the identifier, the directory and the list of
    bindings as they were, and its only host calls are unregistrations: it
    touches no file, and the world changes by the unregistrations alone.
    When [enable], then [disable], then [enable] again
    all return, the second [enable] issues the whole pipeline again: the
    same write, the same spawn, the calls of [load], and registrations of
    the same names in the same order as the first. *)
Theorem disable_keeps_registry :
  (forall st : State,
      this (after disable st) = this st
      /\ world (after disable st)
         = fold_left (fun w b => host_remove_keybinding (name b) w)
                     (bindings (this st)) (world st)
      /\ exists calls,
           issued st (after disable st) calls
           /\ forallb is_unregistration calls = true)
  /\ (forall st0 st1 st2 st3 : State,
        enable st0 = (Normal tt, st1) ->
        disable st1 = (Normal tt, st2) ->
        enable st2 = (Normal tt, st3) ->
        this st3 = this st0
        /\ exists first second,
             issued st0 st1 first
             /\ issued st2 st3 second
             /\ map step_of first = pipeline_steps (this st0)
             /\ map step_of second = pipeline_steps (this st0)).
Proof.
  split.
  - intros st; unfold after; rewrite disable_run; do 2 (split; [reflexivity |]).
    eexists; split; [reflexivity |].
    now induction (bindings (this st)) as [|b bs IH].
  - intros st0 st1 st2 st3 H1 Hd H2.
    rewrite disable_run in Hd; injection Hd as <-.
    apply enable_steps in H1 as (T1 & first & L1 & S1).
    apply enable_steps in H2 as (T2 & second & L2 & S2).
    cbn [this] in T2, S2.
    split; [congruence |].
    exists first, second; repeat split; try assumption.
    now rewrite <- T1.
Qed.

End Lifecycle.

Section Document.
Context {host : Host}.

(** The document of a registry whose identifier was made from
    [caller_id]. *)
Lemma document_form (caller_id d : string) (bs : list Binding) :
  document {| id := "org.gnome.shell.extensions." ++ caller_id; dir := d; bindings := bs |}
  = schema_open caller_id ++ join_empty (map render bs) ++ "</schema></schemalist>".
Proof.
  unfold document, schema_open; cbn [id bindings].
  rewrite replace_dots_app.
  change (replace_dots "org.gnome.shell.extensions.") with "org/gnome/shell/extensions/".
  repeat rewrite append_assoc; reflexivity.
Qed.

(** What [build] writes, and writes again when called twice. *)
Lemma build_twice (caller_id d : string) (bs : list Binding)
    (w : World) (l : list Event) :
  let st := {| this := {| id := "org.gnome.shell.extensions." ++ caller_id;
                          dir := d; bindings := bs |};
               world := w; log := l |} in
  let content :=
    schema_open caller_id
      ++ join_empty
           (map (fun b =>
                   key_open ++ name b ++ DQ ++ "><summary/><default>"
                     ++ JSON_stringify
                          (map (flat_map_string markup_escape_char) (sequences b))
                     ++ "</default></key>")
                bs)
      ++ "</schema></schemalist>" in
  let written :=
    EvReplaceContents d ("org.gnome.shell.extensions." ++ caller_id ++ ".gschema.xml")
      content in
  log (after build st) = (l ++ [written])%list
  /\ log (after build (after build st)) = (l ++ [written; written])%list.
Proof.
  cbv zeta; unfold after.
  rewrite !build_run; cbn [snd this log world]; unfold document_name; cbn [id dir].
  rewrite document_form, (map_ext _ _ render_form), append_assoc.
  split; [reflexivity | now rewrite <- app_assoc].
Qed.

End Document.

(** The document of the example registry. *)
Lemma build_demo_document :
  log (after build demo_state)
  = [EvReplaceContents "/tmp/kbtest" "org.gnome.shell.extensions.demo.gschema.xml"
       ("<schemalist><schema id=" ++ DQ ++ "org.gnome.shell.extensions.demo" ++ DQ
          ++ " path=" ++ DQ ++ "/org/gnome/shell/extensions/demo/" ++ DQ ++ ">"
          ++ "<key type=" ++ DQ ++ "as" ++ DQ ++ " name=" ++ DQ ++ "toggle" ++ DQ
          ++ "><summary/><default>[" ++ DQ ++ "&lt;Super&gt;j" ++ DQ
          ++ "]</default></key>"
          ++ "<key type=" ++ DQ ++ "as" ++ DQ ++ " name=" ++ DQ ++ "quit" ++ DQ
          ++ "><summary/><default>[" ++ DQ ++ "&lt;Super&gt;q" ++ DQ ++ ","
          ++ DQ ++ "&lt;Super&gt;Escape&gt;" ++ DQ ++ "]</default></key>"
          ++ "</schema></schemalist>")].
Proof. vm_compute; reflexivity. Qed.

(** C3, amended.  The document [build] writes depends on the caller's id
    and on the list of bindings only.  It opens with the schema element
    whose id is [org.gnome.shell.extensions.] followed by the caller's id
    and whose path is that identifier between slashes with every dot, those
    of the caller's id included, turned into a slash; one key element per
    binding follows, in the order of the list.  A second [build] on the
    unchanged registry writes the same bytes to the same file.  For the
    caller's id [demo] and the bindings [toggle] and [quit], the document
    carries the schema id [org.gnome.shell.extensions.demo], the path
    [/org/gnome/shell/extensions/demo/] and the two key elements. *)
Theorem build_writes_document :
  (forall (host : Host) (caller_id d : string) (bs : list Binding)
          (w : World) (l : list Event),
      let st := {| this := {| id := "org.gnome.shell.extensions." ++ caller_id;
                              dir := d; bindings := bs |};
                   world := w; log := l |} in
      let content :=
        schema_open caller_id
          ++ join_empty
               (map (fun b =>
                       key_open ++ name b ++ DQ ++ "><summary/><default>"
                         ++ JSON_stringify
                              (map (flat_map_string markup_escape_char) (sequences b))
                         ++ "</default></key>")
                    bs)
          ++ "</schema></schemalist>" in
      let written :=
        EvReplaceContents d
          ("org.gnome.shell.extensions." ++ caller_id ++ ".gschema.xml") content in
      log (after build st) = (l ++ [written])%list
      /\ log (after build (after build st)) = (l ++ [written; written])%list)
  /\ log (after build demo_state)
     = [EvReplaceContents "/tmp/kbtest" "org.gnome.shell.extensions.demo.gschema.xml"
          ("<schemalist><schema id=" ++ DQ ++ "org.gnome.shell.extensions.demo" ++ DQ
             ++ " path=" ++ DQ ++ "/org/gnome/shell/extensions/demo/" ++ DQ ++ ">"
             ++ "<key type=" ++ DQ ++ "as" ++ DQ ++ " name=" ++ DQ ++ "toggle" ++ DQ
             ++ "><summary/><default>[" ++ DQ ++ "&lt;Super&gt;j" ++ DQ
             ++ "]</default></key>"
             ++ "<key type=" ++ DQ ++ "as" ++ DQ ++ " name=" ++ DQ ++ "quit" ++ DQ
             ++ "><summary/><default>[" ++ DQ ++ "&lt;Super&gt;q" ++ DQ ++ ","
             ++ DQ ++ "&lt;Super&gt;Escape&gt;" ++ DQ ++ "]</default></key>"
             ++ "</schema></schemalist>")].
Proof.
  split.
  - intros host caller_id d bs w l; apply build_twice.
  - exact build_demo_document.
Qed.

(** C3 as the specification words it fails on a caller's id with a dot:
    for [a.b] the path written is [/org/gnome/shell/extensions/a/b/], so the
    document does not open with the tag whose path ends in [a.b/]. *)
Lemma build_dotted_id_path :
  log (after build (new_Keybinder (host := demo_host) "a.b" (Some "/tmp/kbtest")
                      demo_world))
  = [EvReplaceContents "/tmp/kbtest" "org.gnome.shell.extensions.a.b.gschema.xml"
       ("<schemalist><schema id=" ++ DQ ++ "org.gnome.shell.extensions.a.b" ++ DQ
          ++ " path=" ++ DQ ++ "/org/gnome/shell/extensions/a/b/" ++ DQ ++ ">"
          ++ "</schema></schemalist>")]
  /\ String.prefix (spec_schema_open "a.b")
       ("<schemalist><schema id=" ++ DQ ++ "org.gnome.shell.extensions.a.b" ++ DQ
          ++ " path=" ++ DQ ++ "/org/gnome/shell/extensions/a/b/" ++ DQ ++ ">"
          ++ "</schema></schemalist>")
     = false.
Proof. split; vm_compute; reflexivity. Qed.

(** C9.  [load] asks for the default source, opens the working directory
    as a source with that default as parent (untrusted), looks the
    registry's identifier up in it with the recursive flag set, and builds
    the settings from what the lookup found.  With the flag set, an
    identifier the directory's cache lacks is searched in the parent, which
    a lookup without the flag would not do; in the example world, whose
    cache is empty and where a schema of that id is installed system-wide,
    [load] returns settings bound to the installed schema. *)
Theorem load_lookup_recursive :
  (forall (host : Host) (st : State),
      let k := this st in
      let fb := host_default_source (world st) in
      match host_compiled_schemas (dir k) false (world st) with
      | Throw e =>
          load st
          = (Throw e,
             {| this := k; world := world st;
                log := (log st ++ [EvGetDefault;
                                   EvNewFromDirectory (dir k) fb false])%list |})
      | Normal schemas =>
          let src := SchemaSource schemas fb in
          let found := SettingsSchemaSource_lookup src (id k) true in
          load st
          = (fst (host_settings_new found (world st)),
             {| this := k; world := snd (host_settings_new found (world st));
                log := (log st ++ [EvGetDefault; EvNewFromDirectory (dir k) fb false;
                                   EvLookup src (id k) true;
                                   EvSettingsNew found])%list |})
          /\ found
             = match table_get (id k) schemas with
               | Some schema => Some schema
               | None =>
                   match fb with
                   | Some p => SettingsSchemaSource_lookup p (id k) true
                   | None => None
                   end
               end
          /\ SettingsSchemaSource_lookup src (id k) false = table_get (id k) schemas
      end)
  /\ (host_compiled_schemas (Host := demo_host) "/tmp/kbtest" false demo_world_colliding
      = Normal []
      /\ fst (load (demo_state_in demo_world_colliding))
         = Normal ("/usr/share/glib-2.0/schemas", "org.gnome.shell.extensions.demo")).
Proof.
  split.
  - intros host st; cbv zeta.
    pose proof (load_run st) as H; cbv zeta in H.
    destruct (host_compiled_schemas (dir (this st)) false (world st)) as [schemas|e].
    + split; [exact H |].
      split; simpl; now destruct (table_get (id (this st)) schemas).
    + exact H.
  - split; vm_compute; reflexivity.
Qed.

(** * Further properties of the class *)

Section Registry.
Context {host : Host}.
Local Open Scope js_scope.

Lemma state_eta (st : State) :
  {| this := this st; world := world st; log := log st |} = st.
Proof. now destruct st. Qed.

Lemma keybinder_eta (k : Keybinder) :
  {| id := id k; dir := dir k; bindings := bindings k |} = k.
Proof. now destruct k. Qed.

Lemma for_of_app {A : Type} (body : A -> M unit) (xs ys : list A) :
  forall st : State,
    for_of (xs ++ ys) body st
    = match for_of xs body st with
      | (Normal _, st') => for_of ys body st'
      | (Throw e, st') => (Throw e, st')
      end.
Proof.
  induction xs as [|x xs IH]; intros st; [reflexivity |].
  cbn [app for_of]; unfold bind.
  destruct (body x st) as [[[]|e] st1]; [apply IH | reflexivity].
Qed.

(** What a series of calls of [add] leaves. *)
Lemma add_all_run (calls : list (string * Sequences * Handler)) (st : State) :
  add_all calls st
  = (Normal tt,
     {| this := {| id := id (this st); dir := dir (this st);
                   bindings := (bindings (this st) ++ map binding_of_call calls)%list |};
        world := world st; log := log st |}).
Proof.
  revert st; induction calls as [|[[n s] h] calls IH]; intros st.
  - unfold add_all; cbn [for_of map]; unfold ret.
    now rewrite app_nil_r, keybinder_eta, state_eta.
  - unfold add_all in IH |- *; cbn [for_of]; unfold bind at 1.
    unfold add, bind, get_this, set_this; cbn [fst snd].
    rewrite IH; cbn [this world log id dir bindings map].
    unfold binding_of_call at 2; cbn [fst snd].
    now rewrite <- app_assoc.
Qed.

(** X1.  Calls of [add] one after the other always return normally, also
    for a name that is already in the list; they append the bindings in
    the order of the calls, keep the identifier and the directory, and
    neither call the host nor change the world. *)
Theorem add_all_appends (calls : list (string * Sequences * Handler)) (st : State) :
  add_all calls st
  = (Normal tt,
     {| this := {| id := id (this st); dir := dir (this st);
                   bindings := (bindings (this st) ++ map binding_of_call calls)%list |};
        world := world st; log := log st |}).
Proof. apply add_all_run. Qed.

Lemma registered_names_app (a b : list Event) :
  registered_names (a ++ b) = (registered_names a ++ registered_names b)%list.
Proof. apply flat_map_app. Qed.

Lemma registered_names_registrations (settings : Settings) (bs : list Binding) :
  registered_names (map (registration settings) bs) = map name bs.
Proof.
  induction bs as [|b bs IH]; [reflexivity |].
  cbn [map]; unfold registered_names in *; cbn [flat_map registration app].
  now rewrite IH.
Qed.

Lemma unregistration_free_registrations (settings : Settings) (bs : list Binding) :
  existsb is_unregistration (map (registration settings) bs) = false.
Proof. now induction bs as [|b bs IH]. Qed.

(** The calls of [load] register and unregister nothing. *)
Lemma load_calls_silent (calls : list Event) :
  Forall (fun e => step_of e = StepLoad) calls ->
  registered_names calls = []
  /\ existsb is_unregistration calls = false
  /\ existsb is_registration calls = false.
Proof.
  induction 1 as [|e l He _ (IH1 & IH2 & IH3)]; [now repeat split |].
  unfold registered_names in *; cbn [flat_map existsb].
  rewrite IH1, IH2, IH3; destruct e; try discriminate; now repeat split.
Qed.

(** [enable] is its three stages and then the loop. *)
Lemma enable_unfold (st : State) :
  enable st
  = match build st with
    | (Throw e, st1) => (Throw e, st1)
    | (Normal _, st1) =>
        match compile st1 with
        | (Throw e, st2) => (Throw e, st2)
        | (Normal _, st2) =>
            match load st2 with
            | (Throw e, st3) => (Throw e, st3)
            | (Normal settings, st3) => register_each settings (bindings (this st3)) st3
            end
        end
    end.
Proof.
  unfold enable, bind at 1 2 3 4; unfold get_this, register_each.
  destruct (build st) as [[[]|e] st1]; [| reflexivity].
  destruct (compile st1) as [[[]|e] st2]; [| reflexivity].
  destruct (load st2) as [[settings|e] st3]; reflexivity.
Qed.

(** One turn of the loop of [enable]. *)
Lemma register_each_cons (settings : Settings) (b : Binding) (bs : list Binding)
    (st : State) :
  let r := host_add_keybinding (name b) settings 0
             (js_bitor Shell_ActionMode_NORMAL Shell_ActionMode_MESSAGE_TRAY)
             (handler b) (world st) in
  let st1 := {| this := this st; world := snd r;
                log := (log st ++ [registration settings b])%list |} in
  register_each settings (b :: bs) st
  = match fst r with
    | Normal _ => register_each settings bs st1
    | Throw e => (Throw e, st1)
    end.
Proof.
  cbv zeta; unfold register_each; cbn [for_of]; unfold bind at 1 2.
  unfold Main_wm_addKeybinding; rewrite host_call_run.
  now destruct (fst (host_add_keybinding _ _ _ _ _ _)).
Qed.

(** The loop of [enable] in any run: the registry is kept, and the calls
    are the registrations of a beginning of the list, of all of it when
    the loop returns. *)
Lemma register_each_any (settings : Settings) (bs : list Binding) :
  forall st : State,
    this (after (register_each settings bs) st) = this st
    /\ exists k,
         (k <= List.length bs)%nat
         /\ issued st (after (register_each settings bs) st)
              (map (registration settings) (firstn k bs))
         /\ (fst (register_each settings bs st) = Normal tt -> k = List.length bs).
Proof.
  unfold after; induction bs as [|b bs IH]; intros st.
  - split; [reflexivity |]; exists 0%nat; repeat split; [lia |].
    unfold issued; simpl; now rewrite app_nil_r.
  - rewrite register_each_cons; cbv zeta.
    destruct (fst (host_add_keybinding _ _ _ _ _ _)) as [a|e].
    + match goal with |- context [register_each settings bs ?s] =>
        destruct (IH s) as (T & k & Hk & L & Hn) end.
      unfold issued in L; cbn [this log] in T, L.
      split; [exact T |].
      exists (S k); repeat split; [simpl; lia | |].
      * unfold issued in L |- *; cbn [firstn map log].
        now rewrite L, <- app_assoc.
      * intros E; simpl; now rewrite (Hn E).
    + split; [reflexivity |].
      exists 1%nat; split; [simpl; lia |].
      split; [reflexivity | discriminate].
Qed.

(** The shape of any run of [enable]. *)
Lemma enable_run_shape (st : State) :
  this (after enable st) = this st
  /\ exists (calls : list Event) (k : nat),
       issued st (after enable st) calls
       /\ existsb is_unregistration calls = false
       /\ (k <= List.length (bindings (this st)))%nat
       /\ registered_names calls = map name (firstn k (bindings (this st)))
       /\ (fst (enable st) = Normal tt -> k = List.length (bindings (this st))).
Proof.
  unfold after; rewrite enable_unfold.
  destruct (build st) as [[[]|e] st1] eqn:Hb.
  2:{ apply build_issued in Hb as [T1 L1]; split; [exact T1 |].
      eexists; exists 0%nat.
      split; [exact L1 |].
      split; [reflexivity |].
      split; [lia |].
      split; [reflexivity | discriminate]. }
  destruct (compile st1) as [[[]|e] st2] eqn:Hc.
  2:{ apply build_issued in Hb as [T1 L1]; apply compile_issued in Hc as [T2 L2].
      cbn [fst snd]; split; [congruence |].
      eexists; exists 0%nat.
      split; [exact (issued_trans _ _ _ _ _ L1 L2) |].
      split; [reflexivity |].
      split; [lia |].
      split; [reflexivity | discriminate]. }
  destruct (load st2) as [[settings|e] st3] eqn:Hl.
  2:{ apply build_issued in Hb as [T1 L1]; apply compile_issued in Hc as [T2 L2].
      apply load_issued in Hl as (T3 & loading & L3 & Hload & _).
      destruct (load_calls_silent _ Hload) as (N1 & N2 & _).
      cbn [fst snd]; split; [congruence |].
      eexists; exists 0%nat.
      split; [exact (issued_trans _ _ _ _ _ (issued_trans _ _ _ _ _ L1 L2) L3) |].
      split; [cbn [app existsb is_unregistration orb]; exact N2 |].
      split; [lia |].
      split; [| discriminate].
      rewrite registered_names_app, N1; reflexivity. }
  apply build_issued in Hb as [T1 L1]; apply compile_issued in Hc as [T2 L2].
  apply load_issued in Hl as (T3 & loading & L3 & Hload & _).
  destruct (load_calls_silent _ Hload) as (N1 & N2 & _).
  assert (T : this st3 = this st) by congruence.
  destruct (register_each_any settings (bindings (this st3)) st3) as (T4 & k & Hk & L4 & Hn).
  unfold after in T4, L4; rewrite T in *.
  split; [congruence |].
  eexists; exists k.
  split; [exact (issued_trans _ _ _ _ _
                   (issued_trans _ _ _ _ _ (issued_trans _ _ _ _ _ L1 L2) L3) L4) |].
  split.
  { rewrite existsb_app, unregistration_free_registrations, orb_false_r.
    cbn [app existsb is_unregistration orb]; exact N2. }
  split; [exact Hk |].
  split; [| exact Hn].
  rewrite !registered_names_app, registered_names_registrations, N1.
  reflexivity.
Qed.

(** X3.  In every run of [enable], also one that throws, the registry is
    left as it was, no unregistration is issued, and the names registered
    are those of a beginning of the list of bindings, in order; of the
    whole list when [enable] returns. *)
Theorem enable_every_run (st : State) :
  this (after enable st) = this st
  /\ exists (calls : list Event) (k : nat),
       issued st (after enable st) calls
       /\ existsb is_unregistration calls = false
       /\ (k <= List.length (bindings (this st)))%nat
       /\ registered_names calls = map name (firstn k (bindings (this st)))
       /\ (fst (enable st) = Normal tt -> k = List.length (bindings (this st))).
Proof. apply enable_run_shape. Qed.

End Registry.

Section Failures.
Context {host : Host}.
Local Open Scope js_scope.

(** The names a returning [enable] adds to those registered so far. *)
Lemma enable_registered_names (st st' : State) :
  enable st = (Normal tt, st') ->
  registered_names (log st')
  = (registered_names (log st) ++ map name (bindings (this st)))%list.
Proof.
  intros H.
  destruct (enable_run_shape st) as (_ & calls & k & L & _ & _ & N & Hk).
  unfold after in L, Hk; rewrite H in L, Hk; cbn [fst snd] in L, Hk.
  unfold issued in L; rewrite L, registered_names_app, N, (Hk eq_refl).
  now rewrite firstn_all.
Qed.

(** X2.  From the constructor through [add] to [enable]: when [enable]
    returns on a registry made by [new Keybinder] and a series of calls
    of [add], the names registered with the window manager are the names
    given to [add], in the order of the calls, duplicates included. *)
Theorem enable_registers_added_names (caller_id : string) (directory : option string)
    (calls : list (string * Sequences * Handler)) (w : World) (st' : State) :
  enable (after (add_all calls) (new_Keybinder caller_id directory w)) = (Normal tt, st') ->
  registered_names (log st') = map (fun c => fst (fst c)) calls.
Proof.
  intros H; apply enable_registered_names in H.
  unfold after in H; rewrite add_all_run in H.
  cbn [snd this log bindings new_Keybinder constructor app registered_names flat_map] in H.
  rewrite H, map_map; reflexivity.
Qed.

(** A loop of [enable] that throws stopped at the first registration that
    threw. *)
Lemma register_each_throw (settings : Settings) (bs : list Binding) :
  forall (st st' : State) (e : Exn),
    register_each settings bs st = (Throw e, st') ->
    exists (pre : list Binding) (b : Binding) (post : list Binding) (st4 : State),
      bs = (pre ++ b :: post)%list
      /\ register_each settings pre st = (Normal tt, st4)
      /\ host_add_keybinding (name b) settings 0
           (js_bitor Shell_ActionMode_NORMAL Shell_ActionMode_MESSAGE_TRAY)
           (handler b) (world st4) = (Throw e, world st')
      /\ issued st st' (map (registration settings) (pre ++ [b])).
Proof.
  induction bs as [|b bs IH]; intros st st' e H; [discriminate |].
  rewrite register_each_cons in H; cbv zeta in H.
  destruct (host_add_keybinding (name b) settings 0 _ (handler b) (world st))
    as [[a|e0] w] eqn:Hcall; cbn [fst snd] in H.
  - apply IH in H as (pre & b' & post & st4 & -> & Hpre & Hthrow & L).
    exists (b :: pre), b', post, st4.
    split; [reflexivity |].
    split; [rewrite register_each_cons; cbv zeta; now rewrite Hcall |].
    split; [exact Hthrow |].
    unfold issued in L |- *; cbn [log app map] in L |- *.
    now rewrite L, <- app_assoc.
  - injection H as <- <-.
    exists [], b, bs, st.
    split; [reflexivity |].
    split; [reflexivity |].
    split; [exact Hcall | reflexivity].
Qed.

(** X4.  There is no rollback.  When the three stages succeed, the
    bindings [pre] are registered and the registration of the next binding
    [b] throws, [enable] throws the same value; the host has then seen the
    registrations of [pre] and the attempt for [b], and nothing for the
    bindings after [b]: those of [pre] stay registered. *)
Theorem enable_no_rollback (st st1 st2 st3 st4 : State) (settings : Settings)
    (pre : list Binding) (b : Binding) (post : list Binding) (e : Exn) (w : World) :
  bindings (this st) = (pre ++ b :: post)%list ->
  build st = (Normal tt, st1) ->
  compile st1 = (Normal tt, st2) ->
  load st2 = (Normal settings, st3) ->
  register_each settings pre st3 = (Normal tt, st4) ->
  host_add_keybinding (name b) settings 0
    (js_bitor Shell_ActionMode_NORMAL Shell_ActionMode_MESSAGE_TRAY)
    (handler b) (world st4) = (Throw e, w) ->
  enable st
  = (Throw e,
     {| this := this st; world := w;
        log := (log st3 ++ map (registration settings) (pre ++ [b]))%list |}).
Proof.
  intros Hbs Hb Hc Hl Hpre Hthrow.
  rewrite enable_unfold, Hb, Hc, Hl.
  apply build_issued in Hb as [T1 _]; apply compile_issued in Hc as [T2 _].
  apply load_issued in Hl as [T3 _].
  assert (T : this st3 = this st) by congruence.
  rewrite T, Hbs; unfold register_each at 1; rewrite for_of_app.
  fold (register_each settings pre); rewrite Hpre.
  fold (register_each settings (b :: post)).
  rewrite register_each_cons; cbv zeta; rewrite Hthrow; cbn [fst snd].
  unfold register_each in Hpre; apply register_loop in Hpre as [T4 L4].
  unfold issued in L4; rewrite T4, T, L4, map_app, <- app_assoc.
  reflexivity.
Qed.

(** X13.  Whatever [enable] throws was thrown by the host: by the write of
    [build], by the spawn of [compile], inside [load], or by the
    registration of one binding [b], after the bindings before it were
    registered. *)
Theorem enable_throw_origin (st st' : State) (e : Exn) :
  enable st = (Throw e, st') ->
  build st = (Throw e, st')
  \/ (exists st1, build st = (Normal tt, st1) /\ compile st1 = (Throw e, st'))
  \/ (exists st1 st2,
        build st = (Normal tt, st1) /\ compile st1 = (Normal tt, st2)
        /\ load st2 = (Throw e, st'))
  \/ (exists (st1 st2 st3 st4 : State) (settings : Settings)
             (pre : list Binding) (b : Binding) (post : list Binding),
        build st = (Normal tt, st1) /\ compile st1 = (Normal tt, st2)
        /\ load st2 = (Normal settings, st3)
        /\ bindings (this st) = (pre ++ b :: post)%list
        /\ register_each settings pre st3 = (Normal tt, st4)
        /\ host_add_keybinding (name b) settings 0
             (js_bitor Shell_ActionMode_NORMAL Shell_ActionMode_MESSAGE_TRAY)
             (handler b) (world st4) = (Throw e, world st')
        /\ issued st3 st' (map (registration settings) (pre ++ [b]))).
Proof.
  rewrite enable_unfold; intros H.
  destruct (build st) as [[[]|e1] st1] eqn:Hb;
    [| injection H as <- <-; left; reflexivity].
  destruct (compile st1) as [[[]|e2] st2] eqn:Hc;
    [| injection H as <- <-; right; left; exists st1; split; [reflexivity | exact Hc]].
  destruct (load st2) as [[settings|e3] st3] eqn:Hl;
    [| injection H as <- <-; right; right; left; exists st1, st2;
       split; [reflexivity | split; [exact Hc | exact Hl]]].
  right; right; right.
  apply build_issued in Hb as [T1 _]; apply compile_issued in Hc as Hc'.
  destruct Hc' as [T2 _]; apply load_issued in Hl as Hl'; destruct Hl' as [T3 _].
  assert (T : this st3 = this st) by congruence.
  rewrite T in H.
  apply register_each_throw in H as (pre & b & post & st4 & Hbs & Hpre & Hthrow & L).
  exists st1, st2, st3, st4, settings, pre, b, post.
  repeat (split; [first [reflexivity | assumption] |]); exact L.
Qed.

(** X12.  There is no enabled flag.  A second [enable] right after the
    first, both returning, runs the whole pipeline again, so every name is
    registered a second time. *)
Theorem enable_twice (st0 st1 st2 : State) :
  enable st0 = (Normal tt, st1) ->
  enable st1 = (Normal tt, st2) ->
  this st2 = this st0
  /\ registered_names (log st2)
     = (registered_names (log st0) ++ map name (bindings (this st0))
        ++ map name (bindings (this st0)))%list
  /\ exists first second,
       issued st0 st1 first /\ issued st1 st2 second
       /\ map step_of first = pipeline_steps (this st0)
       /\ map step_of second = pipeline_steps (this st0).
Proof.
  intros H1 H2.
  pose proof (enable_registered_names _ _ H1) as N1.
  pose proof (enable_registered_names _ _ H2) as N2.
  apply enable_steps in H1 as (T1 & first & L1 & S1).
  apply enable_steps in H2 as (T2 & second & L2 & S2).
  split; [congruence |].
  split; [rewrite N2, N1, T1, <- app_assoc; reflexivity |].
  exists first, second; rewrite T1 in S2; now repeat split.
Qed.

(** X5.  [compile] throws exactly when the spawn itself throws, and then
    the same value; with or without a throw the registry is kept and the
    spawn is the only host call. *)
Theorem compile_throws_only_spawn (st : State) :
  (forall e : Exn,
      fst (compile st) = Throw e
      <-> fst (host_spawn_sync (dir (this st)) ["glib-compile-schemas"; dir (this st)]
                 GLib_SpawnFlags_SEARCH_PATH (world st)) = Throw e)
  /\ this (after compile st) = this st
  /\ issued st (after compile st)
       [EvSpawnSync (dir (this st)) ["glib-compile-schemas"; dir (this st)]
          GLib_SpawnFlags_SEARCH_PATH].
Proof.
  unfold after; rewrite compile_run; cbv zeta; unfold compiler_argv; cbn [fst snd this].
  split; [| split; reflexivity].
  intros e; destruct (fst (host_spawn_sync _ _ _ _)) as [r|e0]; split; intros H;
    first [discriminate H | congruence].
Qed.

(** X6.  A compiler that left no cache shows at [load].  When the write
    succeeds, the spawn returns (whatever its outcome) and the cache of the
    directory cannot be opened, [enable] throws what opening the cache
    threw, after four host calls: the write, the spawn, the default source
    and the opening.  No lookup is made and nothing is registered. *)
Theorem enable_fails_opening_cache (st st1 : State) (outcome : SpawnResult)
    (w : World) (e : Exn) :
  build st = (Normal tt, st1) ->
  host_spawn_sync (dir (this st)) (compiler_argv (this st))
    GLib_SpawnFlags_SEARCH_PATH (world st1) = (Normal outcome, w) ->
  host_compiled_schemas (dir (this st)) false w = Throw e ->
  enable st
  = (Throw e,
     {| this := this st; world := w;
        log := (log st ++ [EvReplaceContents (dir (this st)) (document_name (this st))
                             (document (this st));
                           EvSpawnSync (dir (this st)) (compiler_argv (this st))
                             GLib_SpawnFlags_SEARCH_PATH;
                           EvGetDefault;
                           EvNewFromDirectory (dir (this st)) (host_default_source w)
                             false])%list |}).
Proof.
  intros Hb Hs Ho.
  rewrite enable_unfold, Hb.
  apply build_issued in Hb as [T1 L1]; unfold issued in L1.
  rewrite compile_run; cbv zeta; rewrite T1, Hs; cbn [fst snd].
  rewrite load_run; cbv zeta; cbn [this world log]; rewrite Ho, L1.
  now rewrite <- !app_assoc.
Qed.

(** X7.  The directory's own schema wins.  When the cache of the working
    directory holds a schema under the registry's identifier, [load]
    builds the settings from that schema, whatever the default source
    holds under the same identifier. *)
Theorem load_prefers_directory (st : State)
    (schemas : list (string * SettingsSchema)) (schema : SettingsSchema) :
  host_compiled_schemas (dir (this st)) false (world st) = Normal schemas ->
  table_get (id (this st)) schemas = Some schema ->
  load st
  = (fst (host_settings_new (Some schema) (world st)),
     {| this := this st; world := snd (host_settings_new (Some schema) (world st));
        log := (log st
                ++ [EvGetDefault;
                    EvNewFromDirectory (dir (this st)) (host_default_source (world st))
                      false;
                    EvLookup (SchemaSource schemas (host_default_source (world st)))
                      (id (this st)) true;
                    EvSettingsNew (Some schema)])%list |}).
Proof.
  intros Ho Hget; rewrite load_run; cbv zeta; rewrite Ho.
  cbn [SettingsSchemaSource_lookup]; now rewrite Hget.
Qed.

End Failures.

(** ** More on strings *)

Lemma length_append (a b : string) :
  String.length (a ++ b) = (String.length a + String.length b)%nat.
Proof.
  induction a as [|c a IH]; simpl; [reflexivity | now rewrite IH].
Qed.

Lemma append_cancel_l (p a b : string) : p ++ a = p ++ b -> a = b.
Proof.
  induction p as [|c p IH]; simpl; intros H; [exact H |].
  injection H as H; now apply IH.
Qed.

Lemma append_cancel_r (a b s : string) : a ++ s = b ++ s -> a = b.
Proof.
  revert b; induction a as [|c a IH]; intros [|d b] H; simpl in H.
  - reflexivity.
  - apply (f_equal String.length) in H; simpl in H; rewrite length_append in H; lia.
  - apply (f_equal String.length) in H; simpl in H; rewrite length_append in H; lia.
  - injection H as -> H; now rewrite (IH b H).
Qed.

Lemma in_all_ascii (c : ascii) : In c all_ascii.
Proof.
  unfold all_ascii; rewrite <- (ascii_nat_embedding c).
  apply in_map, in_seq; pose proof (nat_ascii_bounded c); lia.
Qed.

(** Two strings that begin a common string are comparable. *)
Lemma comparable_app (a b x y : string) : a ++ x = b ++ y -> comparable a b = true.
Proof.
  unfold comparable; revert b; induction a as [|c a IH]; intros [|d b] H;
    try reflexivity.
  simpl in H; injection H as -> H.
  specialize (IH b H); simpl.
  now destruct (ascii_dec d d); [| contradiction].
Qed.

Section PrefixFree.
Variable f : ascii -> string.
Hypothesis f_prefix_free : prefix_free f = true.

Lemma prefix_free_comparable (c c' : ascii) : comparable (f c) (f c') = true -> c = c'.
Proof.
  intros H; unfold prefix_free in f_prefix_free.
  rewrite forallb_forall in f_prefix_free.
  pose proof (f_prefix_free c (in_all_ascii c)) as Hc.
  rewrite forallb_forall in Hc; specialize (Hc c' (in_all_ascii c')).
  rewrite H in Hc; simpl in Hc; rewrite orb_false_r in Hc.
  now apply Ascii.eqb_eq.
Qed.

Lemma prefix_free_nonempty (c : ascii) : f c <> EmptyString.
Proof.
  intros E.
  assert (H : forall c', c = c').
  { intros c'; apply prefix_free_comparable; unfold comparable; rewrite E.
    now destruct (f c'). }
  pose proof (H "a"%char) as Ha; pose proof (H "b"%char) as Hb.
  rewrite Ha in Hb; discriminate.
Qed.

(** A prefix-free substitution of characters loses nothing. *)
Lemma flat_map_string_injective (s t : string) :
  flat_map_string f s = flat_map_string f t -> s = t.
Proof.
  revert t; induction s as [|c s IH]; intros [|d t] H; simpl in H.
  - reflexivity.
  - destruct (f d) eqn:E; [now apply prefix_free_nonempty in E | discriminate].
  - destruct (f c) eqn:E; [now apply prefix_free_nonempty in E | discriminate].
  - pose proof (prefix_free_comparable _ _ (comparable_app _ _ _ _ H)) as <-.
    apply append_cancel_l in H; now rewrite (IH t H).
Qed.

End PrefixFree.

Lemma markup_escape_prefix_free : prefix_free markup_escape_char = true.
Proof. vm_compute; reflexivity. Qed.

Lemma json_escape_prefix_free : prefix_free json_escape_char = true.
Proof. vm_compute; reflexivity. Qed.

(** The serialized form of a sequence determines the sequence. *)
Lemma escaped_sequence_injective (s t : string) :
  json_escape (flat_map_string markup_escape_char s)
  = json_escape (flat_map_string markup_escape_char t) ->
  s = t.
Proof.
  intros H.
  apply (flat_map_string_injective _ json_escape_prefix_free) in H.
  now apply (flat_map_string_injective _ markup_escape_prefix_free) in H.
Qed.

(** Text without a quote is read up to the first quote. *)
Lemma split_at_quote (a b r r' : string) :
  forallb (fun c => negb (markup_delimiter c)) (chars a) = true ->
  forallb (fun c => negb (markup_delimiter c)) (chars b) = true ->
  a ++ DQ ++ r = b ++ DQ ++ r' -> a = b /\ r = r'.
Proof.
  revert b; induction a as [|c a IH]; intros [|d b] Ha Hb H; simpl in H.
  - injection H as H; now split.
  - injection H as <- _.
    change (chars (String dquote b)) with (dquote :: chars b) in Hb; discriminate.
  - injection H as -> _.
    change (chars (String dquote a)) with (dquote :: chars a) in Ha; discriminate.
  - injection H as -> H.
    change (chars (String d a)) with (d :: chars a) in Ha.
    change (chars (String d b)) with (d :: chars b) in Hb.
    simpl in Ha, Hb.
    apply andb_true_iff in Ha as [_ Ha]; apply andb_true_iff in Hb as [_ Hb].
    destruct (IH b Ha Hb H) as [-> ->]; now split.
Qed.

Lemma join_cons (sep p : string) (rest : list string) :
  join sep (p :: rest)
  = p ++ match rest with
         | [] => EmptyString
         | _ :: _ => sep ++ join sep rest
         end.
Proof.
  destruct rest; simpl; [| reflexivity].
  induction p as [|c p IH]; simpl; [reflexivity | now rewrite <- IH].
Qed.

(** The elements of a serialized array, one after the other. *)
Lemma stringify_tail (e : string) (l : list string) :
  join "," (QuoteJSONString e :: map QuoteJSONString l) ++ "]"
  = DQ ++ (json_escape e ++ DQ
           ++ match l with
              | [] => "]"
              | _ :: _ => "," ++ (join "," (map QuoteJSONString l) ++ "]")
              end).
Proof.
  rewrite join_cons; unfold QuoteJSONString at 1.
  destruct l; cbn [map]; rewrite !append_assoc; reflexivity.
Qed.

(** The array [JSON.stringify] writes for escaped sequences determines the
    sequences. *)
Lemma stringify_escaped_injective (l1 l2 : list string) :
  JSON_stringify (map (flat_map_string markup_escape_char) l1)
  = JSON_stringify (map (flat_map_string markup_escape_char) l2) ->
  l1 = l2.
Proof.
  unfold JSON_stringify; intros H; apply append_cancel_l in H.
  revert l2 H; induction l1 as [|s l1 IH]; intros [|t l2] H.
  - reflexivity.
  - cbn [map] in H; rewrite stringify_tail in H; discriminate H.
  - cbn [map] in H; rewrite stringify_tail in H; discriminate H.
  - cbn [map] in H; rewrite !stringify_tail in H.
    apply append_cancel_l in H.
    apply split_at_quote in H as [Hst H];
      [| apply escaped_text_no_delimiter, escaped_sequence
       | apply escaped_text_no_delimiter, escaped_sequence].
    apply escaped_sequence_injective in Hst as ->.
    destruct l1 as [|s1 l1], l2 as [|t1 l2]; cbn [map] in H;
      try discriminate H; [reflexivity |].
    apply (append_cancel_l ",") in H.
    now rewrite (IH (t1 :: l2) H).
Qed.

(** No character of the result of the replacement is a dot. *)
Lemma replace_dots_no_dot_left (s : string) :
  existsb (Ascii.eqb ".") (chars (replace_dots s)) = false.
Proof.
  unfold replace_dots; induction s as [|c s IH]; [reflexivity |].
  cbn [flat_map_string]; destruct (Ascii.eqb c ".") eqn:E; cbn [String.append].
  - change (chars (String "/" ?r)) with ("/"%char :: chars r).
    cbn [existsb]; now rewrite IH.
  - change (chars (String c ?r)) with (c :: chars r).
    cbn [existsb]; now rewrite IH, Ascii.eqb_sym, E.
Qed.

(** X10.  The path [build] derives from an identifier has the length of
    the identifier and no dot; the replacement changes nothing exactly when
    there was no dot, and doing it twice is doing it once, so identifiers
    that differ only by slashes in the place of dots get the same path. *)
Theorem replace_dots_path (s : string) :
  existsb (Ascii.eqb ".") (chars (replace_dots s)) = false
  /\ String.length (replace_dots s) = String.length s
  /\ replace_dots (replace_dots s) = replace_dots s
  /\ (replace_dots s = s <-> existsb (Ascii.eqb ".") (chars s) = false).
Proof.
  split; [apply replace_dots_no_dot_left |].
  split.
  { unfold replace_dots; induction s as [|c s IH]; [reflexivity |].
    cbn [flat_map_string]; destruct (Ascii.eqb c ".");
      cbn [String.append String.length]; now rewrite IH. }
  assert (Hfix : forall t, existsb (Ascii.eqb ".") (chars t) = false -> replace_dots t = t).
  { intros t Ht; apply replace_dots_no_dot.
    induction t as [|c t IH]; [reflexivity |].
    change (chars (String c t)) with (c :: chars t) in Ht |- *.
    cbn [existsb forallb] in Ht |- *.
    apply orb_false_iff in Ht as [Hc Ht].
    rewrite Ascii.eqb_sym, Hc; cbn [negb andb]; now apply IH. }
  split; [apply Hfix, replace_dots_no_dot_left |].
  split; [| apply Hfix].
  intros E; rewrite <- E; apply replace_dots_no_dot_left.
Qed.

Section Fragments.
Context {host : Host}.

(** X9.  Registries made from different caller's ids write different
    files: the name of the document determines the caller's id. *)
Theorem document_name_injective (a b : string) (da db : option string) (wa wb : World) :
  document_name (constructor a da wa) = document_name (constructor b db wb) -> a = b.
Proof.
  unfold document_name, constructor; cbn [id]; intros H.
  apply append_cancel_r in H; now apply append_cancel_l in H.
Qed.


(** A plain character goes through both escapes unchanged. *)
Lemma plain_char_kept (c : ascii) :
  plain_char c = true -> json_escape (markup_escape_char c) = String c EmptyString.
Proof.
  destruct c as [[] [] [] [] [] [] [] []]; vm_compute; intros H;
    first [reflexivity | discriminate H].
Qed.

Lemma plain_sequence_kept (s : string) :
  forallb plain_char (chars s) = true ->
  json_escape (flat_map_string markup_escape_char s) = s.
Proof.
  unfold json_escape; induction s as [|c s IH]; [reflexivity |].
  change (chars (String c s)) with (c :: chars s); simpl; intros H.
  apply andb_true_iff in H as [Hc Hs].
  rewrite flat_map_string_app, (IH Hs).
  change (flat_map_string json_escape_char (markup_escape_char c))
    with (json_escape (markup_escape_char c)).
  now rewrite (plain_char_kept c Hc).
Qed.


End Fragments.

Section Composition.
Context {host : Host}.

Lemma join_empty_app (l1 l2 : list string) :
  join_empty (l1 ++ l2) = join_empty l1 ++ join_empty l2.
Proof.
  unfold join_empty; induction l1 as [|x l1 IH]; [reflexivity |].
  cbn [app fold_right]; now rewrite IH, append_assoc.
Qed.

(** X15.  [disable] goes by the list, not by what was registered: after
    further calls of [add], with or without an [enable] in between, it
    issues one unregistration for every binding the list held before and
    one for every name added since, in that order. *)
Theorem disable_unregisters_added (calls : list (string * Sequences * Handler))
    (st : State) :
  log (after (add_all calls) st) = log st
  /\ issued st (after disable (after (add_all calls) st))
       (map EvRemoveKeybinding
            (map name (bindings (this st)) ++ map (fun c => fst (fst c)) calls)).
Proof.
  unfold after; rewrite add_all_run; cbn [snd log].
  split; [reflexivity |].
  rewrite disable_run; unfold issued; cbn [snd log this bindings].
  rewrite !map_app, !map_map; reflexivity.
Qed.

(** X16.  A call of [add] changes the document [build] writes by one key
    element, placed after those of the earlier bindings and right before
    the closing tags; what precedes it is unchanged. *)
Theorem document_after_add (n : string) (s : Sequences) (h : Handler) (st : State) :
  exists head : string,
    document (this st) = head ++ "</schema></schemalist>"
    /\ document (this (after (add n s h) st))
       = head ++ render (binding_of_call (n, s, h)) ++ "</schema></schemalist>".
Proof.
  exists ("<schemalist><schema id=" ++ DQ ++ id (this st) ++ DQ ++ " path=" ++ DQ ++ "/"
            ++ replace_dots (id (this st)) ++ "/" ++ DQ ++ ">"
            ++ join_empty (map render (bindings (this st)))).
  unfold after, add, bind, get_this, set_this, document; cbn [snd this id bindings].
  rewrite map_app, join_empty_app; cbn [map join_empty fold_right].
  unfold binding_of_call; cbn [fst snd].
  split; repeat rewrite append_assoc; reflexivity.
Qed.

(** X8.  [load] does not check what the lookup found.  When the cache of
    the directory opens but neither it nor the default source holds the
    registry's identifier, the settings constructor is called without a
    schema, and [load] ends as that call ends. *)
Theorem load_missing_schema (st : State) (schemas : list (string * SettingsSchema)) :
  host_compiled_schemas (dir (this st)) false (world st) = Normal schemas ->
  table_get (id (this st)) schemas = None ->
  match host_default_source (world st) with
  | Some p => SettingsSchemaSource_lookup p (id (this st)) true
  | None => None
  end = None ->
  load st
  = (fst (host_settings_new None (world st)),
     {| this := this st; world := snd (host_settings_new None (world st));
        log := (log st
                ++ [EvGetDefault;
                    EvNewFromDirectory (dir (this st)) (host_default_source (world st))
                      false;
                    EvLookup (SchemaSource schemas (host_default_source (world st)))
                      (id (this st)) true;
                    EvSettingsNew None])%list |}).
Proof.
  intros Ho Hown Hfb; rewrite load_run; cbv zeta; rewrite Ho.
  cbn [SettingsSchemaSource_lookup]; rewrite Hown.
  destruct (host_default_source (world st)) as [p|]; [rewrite Hfb |]; reflexivity.
Qed.

End Composition.

(** ** The theorems at work on the example *)

#[local] Existing Instance demo_host.

(** C1 on the example registry: [enable] returns, and the two bindings are
    registered in the order [toggle], [quit]. *)
Lemma enable_sequence_witness :
  enable demo_state = (Normal tt, after enable demo_state)
  /\ exists (st1 st2 st3 : State) (settings : Settings) (loading : list Event),
       build demo_state = (Normal tt, st1)
       /\ compile st1 = (Normal tt, st2)
       /\ load st2 = (Normal settings, st3)
       /\ issued demo_state st3
            (EvReplaceContents (dir (this demo_state)) (document_name (this demo_state))
               (document (this demo_state))
             :: EvSpawnSync (dir (this demo_state)) (compiler_argv (this demo_state))
                  GLib_SpawnFlags_SEARCH_PATH
             :: loading)
       /\ Forall (fun e => step_of e = StepLoad) loading
       /\ existsb is_registration loading = false
       /\ issued st3 (after enable demo_state)
            (map (fun b =>
                    EvAddKeybinding (name b) settings 0
                      (js_bitor Shell_ActionMode_NORMAL Shell_ActionMode_MESSAGE_TRAY)
                      (handler b))
                 (bindings (this demo_state))).
Proof.
  assert (H : enable demo_state = (Normal tt, after enable demo_state))
    by (vm_compute; reflexivity).
  split; [exact H |].
  exact (enable_sequence demo_state (after enable demo_state) H).
Defined.

(** C2 on a world whose compiler exits with an error: [compile] returns. *)
Lemma compile_ignores_outcome_witness :
  let st := demo_state_in demo_world_broken_compiler in
  let outcome := {| spawn_ok := true; standard_output := EmptyString;
                    standard_error := "glib-compile-schemas: error";
                    exit_status := 256 |} in
  host_spawn_sync (dir (this st)) ["glib-compile-schemas"; dir (this st)]
    GLib_SpawnFlags_SEARCH_PATH (world st) = (Normal outcome, demo_world_broken_compiler)
  /\ compile st
     = (Normal tt,
        {| this := this st; world := demo_world_broken_compiler;
           log := (log st ++ [EvSpawnSync (dir (this st))
                                ["glib-compile-schemas"; dir (this st)]
                                GLib_SpawnFlags_SEARCH_PATH])%list |}).
Proof.
  cbv zeta.
  assert (H : host_spawn_sync
                (dir (this (demo_state_in demo_world_broken_compiler)))
                ["glib-compile-schemas";
                 dir (this (demo_state_in demo_world_broken_compiler))]
                GLib_SpawnFlags_SEARCH_PATH
                (world (demo_state_in demo_world_broken_compiler))
              = (Normal {| spawn_ok := true; standard_output := EmptyString;
                           standard_error := "glib-compile-schemas: error";
                           exit_status := 256 |}, demo_world_broken_compiler))
    by (vm_compute; reflexivity).
  split; [exact H |].
  exact (compile_ignores_outcome (demo_state_in demo_world_broken_compiler) _ _ H).
Defined.

(** C5 on a world without the working directory: the write fails, [enable]
    throws, nothing was registered. *)
Lemma enable_fails_before_registration_witness :
  let st := demo_state_in demo_world_no_directory in
  build st = (Throw "No such file or directory", after build st)
  /\ enable st = (Throw "No such file or directory", after build st)
  /\ exists calls,
       issued st (after build st) calls /\ existsb is_registration calls = false.
Proof.
  cbv zeta.
  assert (H : build (demo_state_in demo_world_no_directory)
              = (Throw "No such file or directory",
                 after build (demo_state_in demo_world_no_directory)))
    by (vm_compute; reflexivity).
  split; [exact H |].
  exact (enable_fails_before_registration
           (demo_state_in demo_world_no_directory)
           (after build (demo_state_in demo_world_no_directory))
           "No such file or directory" (or_introl H)).
Defined.

(** C7 on the example registry: enable, disable, enable again. *)
Lemma disable_keeps_registry_witness :
  let st1 := after enable demo_state in
  let st2 := after disable st1 in
  let st3 := after enable st2 in
  enable demo_state = (Normal tt, st1)
  /\ disable st1 = (Normal tt, st2)
  /\ enable st2 = (Normal tt, st3)
  /\ files (world st2) = files (world st1)
  /\ caches (world st2) = caches (world st1)
  /\ this st3 = this demo_state
  /\ exists first second,
       issued demo_state st1 first
       /\ issued st2 st3 second
       /\ map step_of first = pipeline_steps (this demo_state)
       /\ map step_of second = pipeline_steps (this demo_state).
Proof.
  cbv zeta.
  assert (H1 : enable demo_state = (Normal tt, after enable demo_state))
    by (vm_compute; reflexivity).
  assert (Hd : disable (after enable demo_state)
               = (Normal tt, after disable (after enable demo_state)))
    by (vm_compute; reflexivity).
  assert (H2 : enable (after disable (after enable demo_state))
               = (Normal tt, after enable (after disable (after enable demo_state))))
    by (vm_compute; reflexivity).
  repeat (split; [assumption |]).
  do 2 (split; [vm_compute; reflexivity |]).
  exact (proj2 disable_keeps_registry _ _ _ _ H1 Hd H2).
Defined.

(** ** The further properties at work *)

(** X2 on the example: the names given to [add] are the names registered. *)
Lemma enable_registers_added_names_witness :
  let calls := [("toggle", OneSequence "<Super>j", 1%nat);
                ("quit", SequenceArray ["<Super>q"; "<Super>Escape>"], 2%nat)] in
  let st := after (add_all (host := demo_host) calls)
              (new_Keybinder (host := demo_host) "demo" (Some "/tmp/kbtest") demo_world) in
  enable st = (Normal tt, after enable st)
  /\ registered_names (log (after enable st)) = ["toggle"; "quit"].
Proof.
  cbv zeta.
  match goal with |- ?hyp /\ _ => assert (H : hyp) by (vm_compute; reflexivity) end.
  split; [exact H |].
  exact (enable_registers_added_names (host := demo_host) "demo" (Some "/tmp/kbtest")
           _ demo_world _ H).
Defined.

(** X4 on the strict host: the second [toggle] is refused; the first one
    stays registered and [quit] is never tried. *)
Lemma enable_no_rollback_witness :
  let st := duplicate_state in
  let st3 := after (load (host := strict_host))
               (after (compile (host := strict_host))
                  (after (build (host := strict_host)) st)) in
  let settings := ("/tmp/kbtest", "org.gnome.shell.extensions.demo") in
  let pre : list (@Binding strict_host) :=
    [@Build_Binding strict_host "toggle" ["<Super>j"] 1%nat] in
  let b : @Binding strict_host :=
    @Build_Binding strict_host "toggle" ["<Super>k"] 2%nat in
  let post : list (@Binding strict_host) :=
    [@Build_Binding strict_host "quit" ["<Super>q"] 3%nat] in
  bindings (this st) = (pre ++ b :: post)%list
  /\ enable (host := strict_host) st
     = (Throw "keybinding already exists",
        {| this := this st;
           world := world (after (register_each (host := strict_host) settings pre) st3);
           log := (log st3
                   ++ map (registration (host := strict_host) settings)
                        (pre ++ [b]))%list |}).
Proof.
  cbv zeta; split; [vm_compute; reflexivity |].
  apply (enable_no_rollback (host := strict_host) duplicate_state
           (after (build (host := strict_host)) duplicate_state)
           (after (compile (host := strict_host))
              (after (build (host := strict_host)) duplicate_state))
           (after (load (host := strict_host))
              (after (compile (host := strict_host))
                 (after (build (host := strict_host)) duplicate_state)))
           (after (register_each (host := strict_host)
                     ("/tmp/kbtest", "org.gnome.shell.extensions.demo")
                     [@Build_Binding strict_host "toggle" ["<Super>j"] 1%nat])
              (after (load (host := strict_host))
                 (after (compile (host := strict_host))
                    (after (build (host := strict_host)) duplicate_state))))
           ("/tmp/kbtest", "org.gnome.shell.extensions.demo")
           [@Build_Binding strict_host "toggle" ["<Super>j"] 1%nat]
           (@Build_Binding strict_host "toggle" ["<Super>k"] 2%nat)
           [@Build_Binding strict_host "quit" ["<Super>q"] 3%nat]);
    vm_compute; reflexivity.
Defined.

(** X13 on the strict host: what [enable] throws there comes from the
    window manager. *)
Lemma enable_throw_origin_witness :
  let st := duplicate_state in
  let st' := after (enable (host := strict_host)) st in
  let e := "keybinding already exists" in
  enable (host := strict_host) st = (Throw e, st')
  /\ (build (host := strict_host) st = (Throw e, st')
      \/ (exists st1, build (host := strict_host) st = (Normal tt, st1)
                      /\ compile st1 = (Throw e, st'))
      \/ (exists st1 st2,
            build (host := strict_host) st = (Normal tt, st1)
            /\ compile st1 = (Normal tt, st2)
            /\ load st2 = (Throw e, st'))
      \/ (exists (st1 st2 st3 st4 : State) (settings : Settings)
                 (pre : list Binding) (b : Binding) (post : list Binding),
            build (host := strict_host) st = (Normal tt, st1)
            /\ compile st1 = (Normal tt, st2)
            /\ load st2 = (Normal settings, st3)
            /\ bindings (this st) = (pre ++ b :: post)%list
            /\ register_each settings pre st3 = (Normal tt, st4)
            /\ host_add_keybinding (name b) settings 0
                 (js_bitor Shell_ActionMode_NORMAL Shell_ActionMode_MESSAGE_TRAY)
                 (handler b) (world st4) = (Throw e, world st')
            /\ issued st3 st' (map (registration settings) (pre ++ [b])))).
Proof.
  cbv zeta.
  match goal with |- ?hyp /\ _ => assert (H : hyp) by (vm_compute; reflexivity) end.
  split; [exact H |].
  exact (enable_throw_origin (host := strict_host) _ _ _ H).
Defined.

(** X12 on the example: two calls of [enable] in a row. *)
Lemma enable_twice_witness :
  let st1 := after enable demo_state in
  let st2 := after enable st1 in
  enable demo_state = (Normal tt, st1)
  /\ enable st1 = (Normal tt, st2)
  /\ this st2 = this demo_state
  /\ registered_names (log st2)
     = (registered_names (log demo_state) ++ map name (bindings (this demo_state))
        ++ map name (bindings (this demo_state)))%list
  /\ exists first second,
       issued demo_state st1 first /\ issued st1 st2 second
       /\ map step_of first = pipeline_steps (this demo_state)
       /\ map step_of second = pipeline_steps (this demo_state).
Proof.
  cbv zeta.
  assert (H1 : enable demo_state = (Normal tt, after enable demo_state))
    by (vm_compute; reflexivity).
  assert (H2 : enable (after enable demo_state)
               = (Normal tt, after enable (after enable demo_state)))
    by (vm_compute; reflexivity).
  split; [exact H1 |]; split; [exact H2 |].
  exact (enable_twice (host := demo_host) _ _ _ H1 H2).
Defined.

(** X6 on the world whose compiler fails: [enable] throws at the opening
    of the cache. *)
Lemma enable_fails_opening_cache_witness :
  let st := demo_state_in demo_world_broken_compiler in
  let st1 := after build st in
  let e := "Failed to open gschemas.compiled" in
  build st = (Normal tt, st1)
  /\ host_compiled_schemas (Host := demo_host) (dir (this st)) false (world st1) = Throw e
  /\ enable st
     = (Throw e,
        {| this := this st; world := world st1;
           log := (log st ++ [EvReplaceContents (dir (this st)) (document_name (this st))
                                (document (this st));
                              EvSpawnSync (dir (this st)) (compiler_argv (this st))
                                GLib_SpawnFlags_SEARCH_PATH;
                              EvGetDefault;
                              EvNewFromDirectory (dir (this st))
                                (host_default_source (world st1)) false])%list |}).
Proof.
  cbv zeta.
  assert (Hb : build (demo_state_in demo_world_broken_compiler)
               = (Normal tt, after build (demo_state_in demo_world_broken_compiler)))
    by (vm_compute; reflexivity).
  split; [exact Hb |]; split; [vm_compute; reflexivity |].
  apply (enable_fails_opening_cache (host := demo_host) _ _
           {| spawn_ok := true; standard_output := EmptyString;
              standard_error := "glib-compile-schemas: error"; exit_status := 256 |}
           _ _ Hb);
    vm_compute; reflexivity.
Defined.

(** X7 on a world where the directory and the system hold a schema of the
    same id: the settings are bound to the directory's. *)
Lemma load_prefers_directory_witness :
  let st := demo_state_in demo_world_both in
  let own := ("/tmp/kbtest", "org.gnome.shell.extensions.demo") in
  table_get (id (this st)) (installed demo_world_both)
  = Some ("/usr/share/glib-2.0/schemas", "org.gnome.shell.extensions.demo")
  /\ load st
     = (fst (host_settings_new (Host := demo_host) (Some own) (world st)),
        {| this := this st;
           world := snd (host_settings_new (Host := demo_host) (Some own) (world st));
           log := (log st
                   ++ [EvGetDefault;
                       EvNewFromDirectory (dir (this st))
                         (host_default_source (world st)) false;
                       EvLookup (SchemaSource [("org.gnome.shell.extensions.demo", own)]
                                   (host_default_source (world st)))
                         (id (this st)) true;
                       EvSettingsNew (Some own)])%list |}).
Proof.
  cbv zeta; split; [vm_compute; reflexivity |].
  apply (load_prefers_directory (host := demo_host) (demo_state_in demo_world_both)
           [("org.gnome.shell.extensions.demo",
             ("/tmp/kbtest", "org.gnome.shell.extensions.demo"))]
           ("/tmp/kbtest", "org.gnome.shell.extensions.demo"));
    vm_compute; reflexivity.
Defined.

(** X9 on two registries of the same caller's id in different
    directories. *)
Lemma document_name_injective_witness :
  document_name (constructor (host := demo_host) "demo" (Some "/tmp/kbtest") demo_world)
  = document_name (constructor (host := demo_host) "demo" None demo_world_no_directory)
  /\ "demo" = "demo".
Proof.
  assert (H : document_name
                (constructor (host := demo_host) "demo" (Some "/tmp/kbtest") demo_world)
              = document_name
                  (constructor (host := demo_host) "demo" None demo_world_no_directory))
    by (vm_compute; reflexivity).
  split; [exact H |].
  exact (document_name_injective (host := demo_host) _ _ _ _ _ _ H).
Defined.



(** X8 on a world whose cache is empty and where nothing is installed:
    the constructor is called without a schema and throws. *)
Lemma load_missing_schema_witness :
  let st := demo_state_in demo_world_empty_cache in
  host_compiled_schemas (Host := demo_host) (dir (this st)) false (world st) = Normal []
  /\ load st
     = (Throw "no settings schema",
        {| this := this st; world := world st;
           log := (log st
                   ++ [EvGetDefault;
                       EvNewFromDirectory (dir (this st))
                         (host_default_source (world st)) false;
                       EvLookup (SchemaSource [] (host_default_source (world st)))
                         (id (this st)) true;
                       EvSettingsNew None])%list |}).
Proof.
  cbv zeta.
  match goal with |- ?hyp /\ _ => assert (H : hyp) by (vm_compute; reflexivity) end.
  split; [exact H |].
  exact (load_missing_schema (host := demo_host) _ _ H eq_refl eq_refl).
Defined.
